(** * download_dataset.py: the dataset fetcher script, embedded and verified

    The script is a straight line of module-level statements plus one helper,
    [_extract_version_numbers].  It is embedded here as a program over

    - a universe [pyval] of the Python values that can flow into the helper
      (what the client hands back for [project.versions()] and
      [project.generate_version(...)]);
    - a writer-style monad [M] that threads the observable behaviour of the
      process: the lines it prints and the calls it makes on the remote
      client, ending in normal completion, [sys.exit(code)], or an exception
      that escapes to the interpreter;
    - a record [world] for everything the script reads from outside:
      installed packages, the environment, the remote client's answers and
      the file system. *)

From Stdlib Require Import ZArith Ascii Floats.SpecFloat.
From stdpp Require Import gmap strings list sorting pretty.

Set Warnings "-register-all".
Local Open Scope string_scope.
Local Open Scope list_scope.
Local Open Scope Z_scope.

(** ** Python values *)

(** [PObj] is a plain object carrying instance attributes (no [__int__],
    [__iter__] or [__bool__] of its own); [PDict] is a [dict] with string
    keys; floats are IEEE values as sign, mantissa and exponent. *)
Inductive pyval :=
| PNone
| PBool (b : bool)
| PInt (z : Z)
| PFloat (f : spec_float)
| PStr (s : string)
| PList (l : list pyval)
| PDict (d : gmap string pyval)
| PObj (attrs : gmap string pyval).

(** The exception classes the script can meet; all derive from [Exception].
    [OtherError] stands for whatever class the remote client raises. *)
Inductive exn_class :=
| TypeError
| ValueError
| OverflowError
| IndexError
| OtherError (name : string).

Record exn := Exn { exn_cls : exn_class; exn_args : pyval }.

(** ** Builtins used by the script *)

(** Truth value of an object, as tested by [if x], [not x] and [x or y]. *)
Definition truthy (v : pyval) : bool :=
  match v with
  | PNone => false
  | PBool b => b
  | PInt z => negb (z =? 0)
  | PFloat (S754_zero _) => false
  | PFloat _ => true
  | PStr s => negb (String.eqb s "")
  | PList l => match l with [] => false | _ => true end
  | PDict d => match map_to_list d with [] => false | _ => true end
  | PObj _ => true
  end.

(** [a or b] *)
Definition py_or (a b : pyval) : pyval := if truthy a then a else b.

(** [getattr(item, name, default)]: only [PObj] carries attributes here; the
    builtin types have no attribute called [version]. *)
Definition getattr (item : pyval) (name : string) (default : pyval) : pyval :=
  match item with
  | PObj attrs => match attrs !! name with Some v => v | None => default end
  | _ => default
  end.

Definition is_None (v : pyval) : bool :=
  match v with PNone => true | _ => false end.

(** [isinstance(item, dict)] *)
Definition isinstance_dict (item : pyval) : bool :=
  match item with PDict _ => true | _ => false end.

(** [item.get(name)] on a dict: the value, or [None] when the key is absent. *)
Definition dict_get (item : pyval) (name : string) : pyval :=
  match item with
  | PDict d => match d !! name with Some v => v | None => PNone end
  | _ => PNone
  end.

(** *** [str.lower] and [int(str)]

    A [string] is read as a sequence of code points below 256. *)

Definition lower_char (c : ascii) : ascii :=
  let n := nat_of_ascii c in
  if ((65 <=? n) && (n <=? 90))%nat then ascii_of_nat (n + 32)
  else if ((192 <=? n) && (n <=? 222) && negb (n =? 215))%nat
       then ascii_of_nat (n + 32)
  else c.

Fixpoint lower (s : string) : string :=
  match s with
  | EmptyString => EmptyString
  | String c s' => String (lower_char c) (lower s')
  end.

(** The blanks [int] skips around a literal: tab to carriage return, the
    space, and of the code points above 127 the two that are spaces (next
    line and no-break space). *)
Definition is_space (c : ascii) : bool :=
  let n := nat_of_ascii c in
  ((9 <=? n) && (n <=? 13) || (n =? 32) || (n =? 133) || (n =? 160))%nat.

Definition digit_of (c : ascii) : option Z :=
  let n := nat_of_ascii c in
  if ((48 <=? n) && (n <=? 57))%nat then Some (Z.of_nat n - 48) else None.

Fixpoint lstrip (l : list ascii) : list ascii :=
  match l with
  | c :: l' => if is_space c then lstrip l' else l
  | [] => []
  end.

Definition strip (l : list ascii) : list ascii :=
  rev (lstrip (rev (lstrip l))).

(** Decimal digits, with single underscores allowed between two digits. *)
Fixpoint parse_digits (acc : Z) (after_digit : bool) (l : list ascii)
  : option Z :=
  match l with
  | [] => if after_digit then Some acc else None
  | c :: l' =>
      match digit_of c with
      | Some d => parse_digits (10 * acc + d) true l'
      | None =>
          if Ascii.eqb c "_"%char && after_digit
          then parse_digits acc false l'
          else None
      end
  end.

(** The interpreter's default limit on the digits of a decimal literal
    ([sys.int_info.default_max_str_digits]). *)
Definition max_str_digits : nat := 4300.

(** How many digits a literal has: leading zeros count, underscores do
    not. *)
Definition count_digits (l : list ascii) : nat :=
  length (List.filter (fun c => bool_decide (is_Some (digit_of c))) l).

(** The digits of a literal, once blanks and sign are gone: a literal of
    more than [max_str_digits] digits is refused like a malformed one. *)
Definition parse_literal (l : list ascii) : option Z :=
  if (max_str_digits <? count_digits l)%nat then None
  else parse_digits 0 false l.

(** [int(s)] for a [str] in base 10; [None] is [ValueError]. *)
Definition int_of_str (s : string) : option Z :=
  match strip (String.list_ascii_of_string s) with
  | c :: l' =>
      if Ascii.eqb c "+"%char then parse_literal l'
      else if Ascii.eqb c "-"%char then Z.opp <$> parse_literal l'
      else parse_literal (c :: l')
  | [] => None
  end.

Inductive int_result :=
| IntOk (z : Z)
| IntRaises (c : exn_class).

(** [int(value)].  A finite float is truncated towards zero, NaN is a
    [ValueError], an infinity an [OverflowError]; [None], lists, dicts and
    plain objects are a [TypeError]. *)
Definition py_int (value : pyval) : int_result :=
  match value with
  | PNone => IntRaises TypeError
  | PBool b => IntOk (if b then 1 else 0)
  | PInt z => IntOk z
  | PFloat f =>
      match f with
      | S754_zero _ => IntOk 0
      | S754_infinity _ => IntRaises OverflowError
      | S754_nan => IntRaises ValueError
      | S754_finite s m e =>
          let t := Z.shiftl (Z.pos m) e in
          IntOk (if s then - t else t)
      end
  | PStr s =>
      match int_of_str s with
      | Some z => IntOk z
      | None => IntRaises ValueError
      end
  | PList _ | PDict _ | PObj _ => IntRaises TypeError
  end.

(** [str(n)] for an [int]. *)
Definition str_int (n : Z) : string := pretty n.

(** [sep.join(parts)] *)
Fixpoint join (sep : string) (parts : list string) : string :=
  match parts with
  | [] => ""
  | [p] => p
  | p :: rest => p +:+ sep +:+ join sep rest
  end.

(** [sorted(set(xs))] on a list of ints. *)
Definition sorted_set (xs : list Z) : list Z :=
  merge_sort Z.le (elements (list_to_set xs : gset Z)).

(** ** The process monad *)

(** What the process does that can be seen from outside: a line on standard
    output, a call on the remote client, or the report the interpreter writes
    on standard error for an exception nobody caught. *)
Inductive event :=
| Print (line : string)
| CallRoboflow (api_key : string)
| CallWorkspace (workspace : string)
| CallProject (project : string)
| CallVersions
| CallGenerateVersion (settings : pyval)
| CallDownload (version : Z) (format location : string) (overwrite : bool)
| Traceback (e : exn).

(** How a piece of the script ends: it falls through with a value, it calls
    [sys.exit(code)], or an exception leaves it. *)
Inductive outcome (A : Type) :=
| Done (a : A)
| Exit (code : Z)
| Raise (e : exn).
Arguments Done {A} a.
Arguments Exit {A} code.
Arguments Raise {A} e.

Definition M (A : Type) : Type := list event * outcome A.

Definition ret {A} (a : A) : M A := ([], Done a).

Definition bind {A B} (m : M A) (k : A -> M B) : M B :=
  match m with
  | (t, Done a) => let '(t', r) := k a in (t ++ t', r)
  | (t, Exit c) => (t, Exit c)
  | (t, Raise e) => (t, Raise e)
  end.

Notation "x <- c1 ;; c2" := (bind c1 (fun x => c2))
  (at level 100, c1 at next level, right associativity).
Notation "c1 ;; c2" := (bind c1 (fun _ => c2))
  (at level 100, right associativity).

Definition emit (e : event) : M unit := ([e], Done tt).
Definition print (line : string) : M unit := emit (Print line).
Definition sys_exit {A} (code : Z) : M A := ([], Exit code).
Definition raise {A} (e : exn) : M A := ([], Raise e).

(** [try: body / except <classes> as e: handler e].  Every class modelled
    derives from [Exception]; [sys.exit] is not one of them and passes. *)
Definition try_except {A} (body : M A) (catches : exn_class -> bool)
    (handler : exn -> M A) : M A :=
  match body with
  | (t, Raise e) =>
      if catches (exn_cls e)
      then let '(t', r) := handler e in (t ++ t', r)
      else (t, Raise e)
  | other => other
  end.

Definition any_Exception (c : exn_class) : bool := true.

Definition TypeError_or_ValueError (c : exn_class) : bool :=
  match c with TypeError | ValueError => true | _ => false end.

Definition trace {A} (m : M A) : list event := m.1.
Definition result {A} (m : M A) : outcome A := m.2.

(** A whole process: the events of the script, then the interpreter's report
    when an exception reached it, and the exit status (0 after a normal end,
    the code of [sys.exit], 1 after an exception). *)
Definition interpreter (m : M unit) : list event * Z :=
  match m with
  | (t, Done _) => (t, 0)
  | (t, Exit code) => (t, code)
  | (t, Raise e) => (t ++ [Traceback e], 1)
  end.

Definition is_remote_call (e : event) : bool :=
  match e with
  | Print _ | Traceback _ => false
  | _ => true
  end.

Definition is_download (e : event) : bool :=
  match e with CallDownload _ _ _ _ => true | _ => false end.

(** [int(value)] as a step of the script. *)
Definition int_ (value : pyval) : M Z :=
  match py_int value with
  | IntOk z => ret z
  | IntRaises c => raise (Exn c value)
  end.

(** [for item in xs]: the items a value yields when iterated; the scalars
    and plain objects are not iterable. *)
Definition py_iter (xs : pyval) : M (list pyval) :=
  match xs with
  | PList l => ret l
  | PDict d => ret (PStr <$> (map_to_list d).*1)
  | PStr s => ret ((fun c => PStr (String c "")) <$> String.list_ascii_of_string s)
  | _ => raise (Exn TypeError xs)
  end.

(** ** The helper: [_extract_version_numbers] *)

(** The loop body, one item at a time, with [version_numbers] as the
    accumulator the source appends to. *)
Fixpoint extract_loop (items : list pyval) (version_numbers : list Z)
  : M (list Z) :=
  match items with
  | [] => ret version_numbers
  | item :: rest =>
      let value := getattr item "version" PNone in
      let value :=
        if is_None value && isinstance_dict item
        then dict_get item "version" else value in
      version_numbers <-
        try_except
          (n <- int_ value ;; ret (version_numbers ++ [n]))
          TypeError_or_ValueError
          (fun _ => ret version_numbers) ;;
      extract_loop rest version_numbers
  end.

Definition _extract_version_numbers (version_objects : pyval) : M (list Z) :=
  items <- py_iter (py_or version_objects (PList [])) ;;
  version_numbers <- extract_loop items [] ;;
  ret (sorted_set version_numbers).

(** ** The outside world *)

(** A [pathlib.Path], as the location string it was built from followed by
    the names joined to it with [/]. *)
Definition path := list string.
Definition Path (location : string) : path := [location].
Definition truediv (p : path) (name : string) : path := p ++ [name].
Infix "/:" := truediv (at level 40, left associativity).

(** Everything the script reads from outside.  [environ] is the environment
    as [os.getenv] sees it once [load_dotenv()] has run.  The [rf_] fields
    are the remote client: what each call answers, or the exception it
    raises.  [exn_str] is [str(e)].  The [fs_] fields are the file system as
    the final summary finds it. *)
Record world := World {
  have_roboflow : bool;
  have_dotenv : bool;
  environ : gmap string string;
  exn_str : exn -> string;
  rf_init : string -> option exn;
  rf_workspace : string -> option exn;
  rf_project : string -> string -> option exn;
  rf_versions : exn + pyval;
  rf_generate_version : pyval -> exn + pyval;
  rf_download : Z -> string -> string -> bool -> exn + string;
  fs_exists : path -> bool;
  fs_glob : path -> string -> list path
}.

(** A call on the client: it is seen, then it answers or raises. *)
Definition call {A} (e : event) (answer : exn + A) : M A :=
  emit e ;;
  match answer with
  | inl err => raise err
  | inr a => ret a
  end.

Definition call_ (e : event) (answer : option exn) : M unit :=
  emit e ;;
  match answer with
  | Some err => raise err
  | None => ret tt
  end.

(** [os.getenv(name)] and [os.getenv(name, default)] *)
Definition getenv (w : world) (name : string) : option string :=
  environ w !! name.
Definition getenv_or (w : world) (name default : string) : string :=
  match environ w !! name with Some v => v | None => default end.

(** [xs[-1]] *)
Definition index_last (xs : list Z) : M Z :=
  match last xs with
  | Some x => ret x
  | None => raise (Exn IndexError (PStr "list index out of range"))
  end.

Definition nl : string := String (ascii_of_nat 10) "".
Definition str_bool (b : bool) : string := if b then "True" else "False".
Definition yes_no (b : bool) : string := if b then "yes" else "no".

(** ** The script, block by block *)

(** Lines 13-27: the dependency check. *)
Definition missing (w : world) : list string :=
  (if have_roboflow w then [] else ["roboflow"])
  ++ (if have_dotenv w then [] else ["python-dotenv"]).

Definition check_dependencies (w : world) : M unit :=
  match missing w with
  | [] => ret tt
  | _ =>
      print "Missing dependencies. Install with:" ;;
      print ("  pip install " +:+ join " " (missing w)) ;;
      sys_exit 1
  end.

(** Lines 31-34. *)
Definition api_key (w : world) : M string :=
  match getenv w "ROBOFLOW_API_KEY" with
  | Some key =>
      if String.eqb key ""
      then print "ERROR: ROBOFLOW_API_KEY not found in .env" ;; sys_exit 1
      else ret key
  | None => print "ERROR: ROBOFLOW_API_KEY not found in .env" ;; sys_exit 1
  end.

(** Lines 36-40. *)
Definition WORKSPACE (w : world) : string :=
  getenv_or w "ROBOFLOW_WORKSPACE" "cvtesting-3rnup".
Definition PROJECT (w : world) : string :=
  getenv_or w "ROBOFLOW_PROJECT" "segmentation-ui-oh51c".
Definition VERSION (w : world) : M Z :=
  int_ (PStr (getenv_or w "ROBOFLOW_VERSION" "1")).
Definition FORMAT (w : world) : string :=
  getenv_or w "ROBOFLOW_FORMAT" "yolov8".
Definition DEST (w : world) : string :=
  getenv_or w "ROBOFLOW_DEST" "./dataset".

(** Lines 41-50: the two toggles. *)
Definition falsy_tokens : gset string := {[ "0"; "false"; "no" ]}.

Definition toggle (value : string) : bool :=
  bool_decide (lower value ∉ falsy_tokens).

Definition AUTO_GENERATE_VERSION (w : world) : bool :=
  toggle (getenv_or w "ROBOFLOW_AUTO_GENERATE_VERSION" "1").
Definition OVERWRITE_EXISTING (w : world) : bool :=
  toggle (getenv_or w "ROBOFLOW_OVERWRITE" "1").

(** Lines 80-87: the settings handed to [generate_version]. *)
Definition generate_settings : pyval :=
  PDict {[ "augmentation" := PDict ∅; "preprocessing" := PDict ∅ ]}.

(** Lines 73-103: what [available_versions] holds afterwards, from what the
    helper returned. *)
Definition available_versions (w : world) (auto_generate : bool)
    (available_versions : list Z) : M (list Z) :=
  match available_versions with
  | _ :: _ =>
      let joined := join ", " (str_int <$> available_versions) in
      print ("Available versions: " +:+ joined) ;;
      ret available_versions
  | [] =>
      if auto_generate then
        print "No dataset versions found. Generating initial version automatically..." ;;
        try_except
          (generated <-
             (r <- call (CallGenerateVersion generate_settings)
                        (rf_generate_version w generate_settings) ;;
              int_ r) ;;
           print ("Generated version " +:+ str_int generated +:+ ".") ;;
           ret [generated])
          any_Exception
          (fun e =>
             print ("ERROR: Failed to auto-generate initial version: "
                    +:+ exn_str w e) ;;
             print "Try creating a version manually in the Roboflow UI." ;;
             sys_exit 1)
      else
        print "ERROR: No dataset versions were returned for this project." ;;
        print "Possible causes:" ;;
        print "  - Wrong workspace or project slug" ;;
        print "  - API key does not have access to this project" ;;
        print "  - No version has been generated/exported in Roboflow yet" ;;
        print (nl +:+ "Verify in Roboflow UI that at least one dataset version exists,") ;;
        print ("and confirm slugs: workspace='" +:+ WORKSPACE w
               +:+ "', project='" +:+ PROJECT w +:+ "'.") ;;
        print "If desired, enable auto-generation with ROBOFLOW_AUTO_GENERATE_VERSION=1." ;;
        sys_exit 1
  end.

(** Lines 105-112. *)
Definition target_version (requested : Z) (available_versions : list Z)
  : M Z :=
  let target_version := requested in
  if bool_decide (target_version ∈ available_versions) then ret target_version
  else
    latest <- index_last available_versions ;;
    print ("Requested version " +:+ str_int target_version
           +:+ " is unavailable. "
           +:+ "Falling back to latest available version "
           +:+ str_int latest +:+ ".") ;;
    ret latest.

(** [project.version(v).download(FORMAT, location=DEST, overwrite=...)],
    answering the [location] of the dataset object. *)
Definition download (w : world) (version : Z) (format dest : string)
    (overwrite : bool) : M string :=
  call (CallDownload version format dest overwrite)
       (rf_download w version format dest overwrite).

(** Lines 115-128: the download and its one retry. *)
Definition dataset (w : world) (target_version : Z)
    (available_versions : list Z) (format dest : string) (overwrite : bool)
  : M string :=
  try_except
    (download w target_version format dest overwrite)
    any_Exception
    (fun e =>
       print ("ERROR: Download failed for version " +:+ str_int target_version
              +:+ ": " +:+ exn_str w e) ;;
       newest <- index_last available_versions ;;
       if negb (target_version =? newest) then
         latest <- index_last available_versions ;;
         print ("Retrying with latest version " +:+ str_int latest +:+ "...") ;;
         download w latest format dest overwrite
       else raise e).

(** Lines 135-147: the summary after the download. *)
Definition verification (w : world) (location : string) : M unit :=
  let root := Path location in
  if fs_exists w root then
    let train_imgs := fs_glob w (root /: "train" /: "images") "*" in
    let train_lbls := fs_glob w (root /: "train" /: "labels") "*.txt" in
    let valid_exists := fs_exists w (root /: "valid") in
    let test_exists := fs_exists w (root /: "test") in
    print ("Verification summary:"
           +:+ " train/images=" +:+ str_int (Z.of_nat (length train_imgs)) +:+ ","
           +:+ " train/labels=" +:+ str_int (Z.of_nat (length train_lbls)) +:+ ","
           +:+ " valid_split=" +:+ yes_no valid_exists +:+ ","
           +:+ " test_split=" +:+ yes_no test_exists)
  else ret tt.

(** Lines 52-71: connecting, and listing the versions. *)
Definition connect_and_list (w : world) (key : string) : M (list Z) :=
  print ("Connecting to Roboflow workspace: " +:+ WORKSPACE w) ;;
  call_ (CallRoboflow key) (rf_init w key) ;;
  call_ (CallWorkspace (WORKSPACE w)) (rf_workspace w (WORKSPACE w)) ;;
  call_ (CallProject (PROJECT w)) (rf_project w (WORKSPACE w) (PROJECT w)) ;;
  versions <- call CallVersions (rf_versions w) ;;
  _extract_version_numbers versions.

(** Lines 105-147, from the version set on. *)
Definition fetch (w : world) (requested : Z) (versions : list Z) : M unit :=
  target <- target_version requested versions ;;
  print ("Downloading version " +:+ str_int target +:+ " in " +:+ FORMAT w
         +:+ " format → " +:+ DEST w) ;;
  location <- dataset w target versions (FORMAT w) (DEST w)
                      (OVERWRITE_EXISTING w) ;;
  print (nl +:+ "Download complete.") ;;
  print ("Dataset location: " +:+ location) ;;
  print ("Overwrite enabled: " +:+ str_bool (OVERWRITE_EXISTING w)) ;;
  verification w location.

(** The whole script, top to bottom. *)
Definition main (w : world) : M unit :=
  check_dependencies w ;;
  key <- api_key w ;;
  requested <- VERSION w ;;
  listed <- connect_and_list w key ;;
  versions <- available_versions w (AUTO_GENERATE_VERSION w) listed ;;
  fetch w requested versions.

(** Lines 13-103: everything up to the version set. *)
Definition resolve (w : world) : M (Z * list Z) :=
  check_dependencies w ;;
  key <- api_key w ;;
  requested <- VERSION w ;;
  listed <- connect_and_list w key ;;
  versions <- available_versions w (AUTO_GENERATE_VERSION w) listed ;;
  ret (requested, versions).

(** The process the operating system sees. *)
Definition run (w : world) : list event * Z := interpreter (main w).

(** The world with another answer to [project.versions()]. *)
Definition with_versions (w : world) (answer : exn + pyval) : world :=
  {| have_roboflow := have_roboflow w;
     have_dotenv := have_dotenv w;
     environ := environ w;
     exn_str := exn_str w;
     rf_init := rf_init w;
     rf_workspace := rf_workspace w;
     rf_project := rf_project w;
     rf_versions := answer;
     rf_generate_version := rf_generate_version w;
     rf_download := rf_download w;
     fs_exists := fs_exists w;
     fs_glob := fs_glob w |}.

(** ** The specification's vocabulary *)

(** A VersionSet: version numbers in ascending order, none twice. *)
Definition VersionSet (V : list Z) : Prop := StronglySorted Z.lt V.

(** [m] is the maximum element of [V]. *)
Definition is_max (m : Z) (V : list Z) : Prop :=
  m ∈ V ∧ ∀ x, x ∈ V → x <= m.

(** The identifier the helper reads off one entry (lines 60-62). *)
Definition entry_value (item : pyval) : pyval :=
  let value := getattr item "version" PNone in
  if is_None value && isinstance_dict item
  then dict_get item "version" else value.

(** The integer an entry contributes, when its identifier coerces. *)
Definition coerced (item : pyval) : option Z :=
  match py_int (entry_value item) with
  | IntOk z => Some z
  | IntRaises _ => None
  end.

(** An entry whose identifier [int] rejects with one of the two errors the
    helper catches. *)
Definition skippable (item : pyval) : Prop :=
  ∀ c, py_int (entry_value item) = IntRaises c →
       TypeError_or_ValueError c = true.

(** The version of a download request is in [V]; other events pass. *)
Definition asks_within (V : list Z) (ev : event) : Prop :=
  match ev with
  | CallDownload v _ _ _ => v ∈ V
  | _ => True
  end.

Definition no_download (ev : event) : Prop := is_download ev = false.

(** The line the summary prints, from the two counts and the two flags. *)
Definition summary_line (images labels : nat) (valid test : bool) : string :=
  "Verification summary: train/images=" +:+ pretty (Z.of_nat images)
  +:+ ", train/labels=" +:+ pretty (Z.of_nat labels)
  +:+ ", valid_split=" +:+ (if valid then "yes" else "no")
  +:+ ", test_split=" +:+ (if test then "yes" else "no").

(** No comma in the string. *)
Fixpoint comma_free (s : string) : Prop :=
  match s with
  | EmptyString => True
  | String c s' => c ≠ ","%char ∧ comma_free s'
  end.

(** ** Sample worlds *)

(** The same world with another environment. *)
Definition with_environ (w : world) (env : gmap string string) : world :=
  {| have_roboflow := have_roboflow w;
     have_dotenv := have_dotenv w;
     environ := env;
     exn_str := exn_str w;
     rf_init := rf_init w;
     rf_workspace := rf_workspace w;
     rf_project := rf_project w;
     rf_versions := rf_versions w;
     rf_generate_version := rf_generate_version w;
     rf_download := rf_download w;
     fs_exists := fs_exists w;
     fs_glob := fs_glob w |}.

Definition demo_exn_str (e : exn) : string :=
  match exn_args e with PStr s => s | _ => "" end.

Definition demo_files (dir : path) (stem ext : string) (n : nat) : list path :=
  (fun i => dir /: (stem +:+ pretty i +:+ ext)) <$> seq 0 n.

(** Both packages installed, a key, version 2 requested, versions 3 and 1
    listed (one entry of each shape), only version 3 downloadable, and a
    destination holding ten training images and eight label files. *)
Definition demo_world : world :=
  {| have_roboflow := true;
     have_dotenv := true;
     environ := {[ "ROBOFLOW_API_KEY" := "secret"; "ROBOFLOW_VERSION" := "2" ]};
     exn_str := demo_exn_str;
     rf_init := fun _ => None;
     rf_workspace := fun _ => None;
     rf_project := fun _ _ => None;
     rf_versions := inr (PList [PObj {[ "version" := PStr "3" ]};
                                PDict {[ "version" := PInt 1 ]}]);
     rf_generate_version := fun _ => inr (PInt 1);
     rf_download := fun v _ dest _ =>
       if v =? 3 then inr dest
       else inl (Exn (OtherError "RuntimeError") (PStr "export missing"));
     fs_exists := fun p =>
       bool_decide (p ∈ [["./dataset"]; ["./dataset"; "train"];
                         ["./dataset"; "train"; "images"];
                         ["./dataset"; "train"; "labels"]]);
     fs_glob := fun p pattern =>
       if bool_decide (p = ["./dataset"; "train"; "images"])
       then demo_files p "img" ".png" 10
       else if bool_decide (p = ["./dataset"; "train"; "labels"])
       then demo_files p "img" ".txt" 8
       else [] |}.

(** The sample world asked for version "1.5". *)
Definition bad_version_world : world :=
  with_environ demo_world
    {[ "ROBOFLOW_API_KEY" := "secret"; "ROBOFLOW_VERSION" := "1.5" ]}.

(** The sample world with the auto-generation toggle written in capitals. *)
Definition shouting_world : world :=
  with_environ demo_world
    {[ "ROBOFLOW_API_KEY" := "secret";
       "ROBOFLOW_AUTO_GENERATE_VERSION" := "FALSE" ]}.

(** ** More vocabulary *)

Definition is_generate (e : event) : bool :=
  match e with CallGenerateVersion _ => true | _ => false end.

(** Two sample entries: an object with a [version] attribute and a dict
    with a [version] key. *)
Definition obj_entry (v : pyval) : pyval := PObj {[ "version" := v ]}.
Definition dict_entry (v : pyval) : pyval := PDict {[ "version" := v ]}.

(** The four calls every run makes first, in this order, once the
    configuration is read. *)
Definition handshake (w : world) (key : string) : list event :=
  [CallRoboflow key; CallWorkspace (WORKSPACE w); CallProject (PROJECT w);
   CallVersions].

(** A download request with the configured format, destination and
    overwrite flag. *)
Definition configured_download (w : world) (ev : event) : Prop :=
  ∃ v, ev = CallDownload v (FORMAT w) (DEST w) (OVERWRITE_EXISTING w).

(** The only exit code a piece of the script uses is 1. *)
Definition exits_with_1 {A} (m : M A) : Prop :=
  ∀ code, result m = Exit code → code = 1.

(** The world with other packages installed. *)
Definition with_packages (w : world) (roboflow dotenv : bool) : world :=
  {| have_roboflow := roboflow;
     have_dotenv := dotenv;
     environ := environ w;
     exn_str := exn_str w;
     rf_init := rf_init w;
     rf_workspace := rf_workspace w;
     rf_project := rf_project w;
     rf_versions := rf_versions w;
     rf_generate_version := rf_generate_version w;
     rf_download := rf_download w;
     fs_exists := fs_exists w;
     fs_glob := fs_glob w |}.

(** An event that is neither a generation nor a download request. *)
Definition before_versions (ev : event) : Prop :=
  is_generate ev = false ∧ is_download ev = false.

(** How many download requests a piece of the script makes. *)
Definition downloads {A} (m : M A) : nat :=
  length (List.filter is_download (trace m)).

(** The sample world whose client cannot list the versions. *)
Definition failing_listing_world : world :=
  with_versions demo_world
    (inl (Exn (OtherError "ConnectionError") (PStr "offline"))).


(** The sample world on a project without versions. *)
Definition empty_project_world : world :=
  with_versions demo_world (inr (PList [])).

(** The same, with auto-generation switched off. *)
Definition manual_project_world : world :=
  with_environ empty_project_world
    {[ "ROBOFLOW_API_KEY" := "secret";
       "ROBOFLOW_AUTO_GENERATE_VERSION" := "no" ]}.

(** ** The monad's laws and the shape of traces *)

Lemma bind_ret_l {A B} (a : A) (k : A -> M B) : bind (ret a) k = k a.
Proof. unfold bind, ret. destruct (k a) as [t r]. reflexivity. Qed.

Lemma bind_assoc {A B C} (m : M A) (f : A -> M B) (g : B -> M C) :
  bind (bind m f) g = bind m (fun a => bind (f a) g).
Proof.
  destruct m as [t [a|code|e]]; simpl; try reflexivity.
  destruct (f a) as [t1 [b|code|e]]; simpl; try reflexivity.
  destruct (g b) as [t2 r]. by rewrite app_assoc.
Qed.

Lemma bind_Done_inv {A B} (m : M A) (k : A -> M B) t b :
  bind m k = (t, Done b) →
  ∃ t1 a t2, m = (t1, Done a) ∧ k a = (t2, Done b) ∧ t = t1 ++ t2.
Proof.
  destruct m as [t1 [a|code|e]]; simpl; try discriminate.
  destruct (k a) as [t2 r] eqn:Hk. intros [= <- ->]. eauto 6.
Qed.

Lemma trace_bind {A B} (m : M A) (k : A -> M B) :
  trace (bind m k) =
  trace m ++ match result m with Done a => trace (k a) | _ => [] end.
Proof.
  destruct m as [t [a|code|e]]; simpl; unfold trace; simpl;
    rewrite ?app_nil_r; try reflexivity.
  destruct (k a) as [t2 r]. reflexivity.
Qed.

Lemma bind_ext {A B} (m : M A) (f g : A -> M B) :
  (∀ a, f a = g a) → bind m f = bind m g.
Proof.
  intros Hfg. destruct m as [t [a|code|e]]; simpl; try reflexivity.
  by rewrite Hfg.
Qed.

Lemma main_resolve_fetch w :
  main w = (p <- resolve w ;; fetch w p.1 p.2).
Proof.
  unfold main, resolve.
  repeat (rewrite ?bind_assoc; apply bind_ext; intros ?).
  by rewrite bind_ret_l.
Qed.

(** ** Version sets *)

Lemma sorted_set_elem xs x : x ∈ sorted_set xs ↔ x ∈ xs.
Proof.
  unfold sorted_set.
  by rewrite merge_sort_Permutation, elem_of_elements, elem_of_list_to_set.
Qed.

Lemma StronglySorted_le_NoDup_lt (l : list Z) :
  StronglySorted Z.le l → NoDup l → StronglySorted Z.lt l.
Proof.
  induction 1 as [|x l Hl IH Hx]; intros Hnd; [constructor|].
  apply NoDup_cons in Hnd as [Hnotin Hnd].
  constructor; [by apply IH|].
  apply Forall_forall. intros y Hy.
  pose proof (proj1 (Forall_forall _ _) Hx y Hy).
  assert (x ≠ y) by (intros ->; done). lia.
Qed.

Lemma sorted_set_VersionSet xs : VersionSet (sorted_set xs).
Proof.
  unfold VersionSet, sorted_set.
  apply StronglySorted_le_NoDup_lt.
  - apply (StronglySorted_merge_sort Z.le).
  - rewrite merge_sort_Permutation. apply NoDup_elements.
Qed.

Lemma last_elem (V : list Z) m : last V = Some m → m ∈ V.
Proof.
  induction V as [|x [|y V] IH]; simpl; intros H; try discriminate.
  - injection H as ->. apply list_elem_of_here.
  - apply list_elem_of_further, IH, H.
Qed.

Lemma VersionSet_last_max V m : VersionSet V → last V = Some m → is_max m V.
Proof.
  intros HV Hlast. split; [by apply last_elem|].
  induction HV as [|x V HV IH Hx]; [discriminate|].
  intros y Hy. destruct V as [|z V].
  - injection Hlast as <-. apply list_elem_of_singleton in Hy. lia.
  - change (last (z :: V) = Some m) in Hlast.
    apply elem_of_cons in Hy as [->|Hy]; [|by apply IH].
    pose proof (proj1 (Forall_forall _ _) Hx m (last_elem _ _ Hlast)). lia.
Qed.

Lemma last_nonempty (V : list Z) : V ≠ [] → ∃ m, last V = Some m.
Proof.
  induction V as [|x [|y V] IH]; intros H; [done|by exists x|].
  apply IH. done.
Qed.

Lemma is_max_unique V m m' : is_max m V → is_max m' V → m = m'.
Proof. intros [Hm Hle] [Hm' Hle']. specialize (Hle _ Hm'). specialize (Hle' _ Hm). lia. Qed.

Lemma VersionSet_max_last V m : VersionSet V → is_max m V → last V = Some m.
Proof.
  intros HV Hm. destruct (last_nonempty V) as [m' Hm'].
  - intros ->. destruct Hm as [Hm _]. by apply elem_of_nil in Hm.
  - rewrite Hm'. f_equal. eapply is_max_unique; [|done].
    by apply VersionSet_last_max.
Qed.

(** ** Version selection (lines 105-112) *)

(** C1. For every version set [V] (ascending, without repeats, non-empty)
    and requested version [r], the selection step ends normally with [r]
    when [r] is in [V], printing nothing, and otherwise with the maximum
    element of [V], after one line announcing the fallback. *)
Theorem select_version_spec (r : Z) (V : list Z) :
  VersionSet V → V ≠ [] →
  ∃ t v, target_version r V = (t, Done v)
    ∧ (r ∈ V → v = r ∧ t = [])
    ∧ (r ∉ V → is_max v V ∧ ∃ line, t = [Print line]).
Proof.
  intros HV Hne. destruct (last_nonempty V Hne) as [m Hm].
  unfold target_version. case_bool_decide as Hin.
  - exists [], r. split; [done|]. split; [done|]. done.
  - unfold index_last. rewrite Hm. simpl.
    eexists _, m. split; [reflexivity|]. split; [done|].
    intros _. split; [by apply VersionSet_last_max|]. eauto.
Qed.

Lemma select_version_spec_witness :
  ∃ t v, target_version 5 [1; 3] = (t, Done v)
    ∧ (5 ∈ [1; 3] → v = 5 ∧ t = [])
    ∧ (5 ∉ [1; 3] → is_max v [1; 3] ∧ ∃ line, t = [Print line]).
Proof.
  apply (select_version_spec 5 [1; 3]).
  - unfold VersionSet. repeat constructor.
  - discriminate.
Defined.

(** ** Version-entry parsing (lines 57-67) *)

Lemma extract_loop_skippable items acc :
  Forall skippable items →
  extract_loop items acc = ([], Done (acc ++ omap coerced items)).
Proof.
  intros Hall. revert acc.
  induction Hall as [|item items Hitem _ IH]; intros acc; simpl.
  - by rewrite app_nil_r.
  - fold (entry_value item). unfold coerced at 1, int_.
    destruct (py_int (entry_value item)) as [z|c] eqn:Hint; simpl.
    + rewrite IH. by rewrite <- app_assoc.
    + rewrite (Hitem c Hint). simpl. by rewrite IH.
Qed.

Lemma extract_loop_raises items item rest acc c :
  Forall skippable items →
  py_int (entry_value item) = IntRaises c →
  TypeError_or_ValueError c = false →
  extract_loop (items ++ item :: rest) acc
  = ([], Raise (Exn c (entry_value item))).
Proof.
  intros Hall Hint Hc. revert acc.
  induction Hall as [|item' items Hitem _ IH]; intros acc; simpl.
  - fold (entry_value item). unfold int_. rewrite Hint. simpl. by rewrite Hc.
  - fold (entry_value item'). unfold int_.
    destruct (py_int (entry_value item')) as [z|c'] eqn:Hint'; simpl.
    + by rewrite IH.
    + rewrite (Hitem c' Hint'). simpl. by rewrite IH.
Qed.

Lemma py_or_list items :
  py_iter (py_or (PList items) (PList [])) = ret items.
Proof. by destruct items. Qed.

(** X1. On a list whose entries either coerce or are rejected with one of the
    two caught errors, the helper returns the coerced integers as a version
    set: ascending, without repeats, and nothing else. *)
Lemma extract_version_numbers_skippable items :
  Forall skippable items →
  ∃ V, _extract_version_numbers (PList items) = ([], Done V)
     ∧ VersionSet V
     ∧ ∀ z, z ∈ V ↔ ∃ item, item ∈ items ∧ coerced item = Some z.
Proof.
  intros Hall. exists (sorted_set (omap coerced items)).
  split; [|split].
  - unfold _extract_version_numbers. rewrite py_or_list, bind_ret_l.
    by rewrite (extract_loop_skippable items []).
  - apply sorted_set_VersionSet.
  - intros z. rewrite sorted_set_elem, list_elem_of_omap. done.
Qed.

Lemma extract_loop_trace items acc : trace (extract_loop items acc) = [].
Proof.
  revert acc. induction items as [|item items IH]; intros acc; [done|].
  simpl. fold (entry_value item). unfold int_.
  destruct (py_int (entry_value item)) as [z|c]; simpl.
  - specialize (IH (acc ++ [z])).
    destruct (extract_loop items (acc ++ [z])) as [t r]. apply IH.
  - destruct (TypeError_or_ValueError c); simpl; [|done].
    specialize (IH acc). destruct (extract_loop items acc) as [t r]. apply IH.
Qed.

Lemma extract_version_numbers_trace v : trace (_extract_version_numbers v) = [].
Proof.
  unfold _extract_version_numbers. rewrite trace_bind.
  assert (Hiter : trace (py_iter (py_or v (PList []))) = []).
  { unfold py_iter. by destruct (py_or v (PList [])). }
  rewrite Hiter. simpl.
  destruct (result (py_iter (py_or v (PList [])))) as [items| |]; try done.
  rewrite trace_bind, extract_loop_trace. simpl.
  by destruct (result (extract_loop items [])).
Qed.

Lemma extract_version_numbers_VersionSet v t V :
  _extract_version_numbers v = (t, Done V) → VersionSet V.
Proof.
  unfold _extract_version_numbers. intros H.
  apply bind_Done_inv in H as (t1 & items & t2 & _ & H & _).
  apply bind_Done_inv in H as (t3 & vn & t4 & _ & H & _).
  injection H as _ <-. apply sorted_set_VersionSet.
Qed.

(** The example of the specification: two shapes, one malformed entry and
    one repeat. *)
Example extract_version_numbers_mixed :
  _extract_version_numbers
    (PList [PDict {[ "version" := PStr "3" ]};
            PObj {[ "version" := PInt 1 ]};
            PDict {[ "version" := PStr "bad" ]};
            PObj {[ "version" := PInt 1 ]}])
  = ([], Done [1; 3]).
Proof. vm_compute. reflexivity. Qed.

(** C2. The helper skips an entry only when [int] rejects its identifier
    with [TypeError] or [ValueError].  An identifier that is an infinite
    float cannot be coerced either, but [int] rejects it with
    [OverflowError]: on the one-entry list [[{"version": float("inf")}]] the
    helper does not skip the entry, the error leaves it. *)
Theorem extract_version_numbers_infinite_float :
  _extract_version_numbers
    (PList [PDict {[ "version" := PFloat (S754_infinity false) ]}])
  = ([], Raise (Exn OverflowError (PFloat (S754_infinity false)))).
Proof. vm_compute. reflexivity. Qed.

(** C10. When the listing is [None], the helper returns the empty version
    set without raising, as it does for the empty list, and the whole
    script behaves as for the empty list. *)
Theorem extract_version_numbers_None (w : world) :
  _extract_version_numbers PNone = ([], Done [])
  ∧ _extract_version_numbers PNone = _extract_version_numbers (PList [])
  ∧ main (with_versions w (inr PNone))
    = main (with_versions w (inr (PList []))).
Proof.
  assert (H1 : _extract_version_numbers PNone = ([], Done []))
    by (vm_compute; reflexivity).
  assert (H2 : _extract_version_numbers (PList []) = ([], Done []))
    by (vm_compute; reflexivity).
  split; [done|]. split; [by rewrite H1, H2|].
  unfold main. apply bind_ext; intros _.
  apply bind_ext; intros key. apply bind_ext; intros requested.
  assert (Hc : connect_and_list (with_versions w (inr PNone)) key
               = connect_and_list (with_versions w (inr (PList []))) key).
  { unfold connect_and_list.
    repeat (apply bind_ext; intros ?).
    unfold call. simpl rf_versions. rewrite !bind_assoc.
    apply bind_ext; intros _. by rewrite !bind_ret_l, H1, H2. }
  rewrite Hc. reflexivity.
Qed.

(** ** Making sure a version exists (lines 73-103) *)

Lemma available_versions_nonempty w auto x V :
  available_versions w auto (x :: V)
  = ([Print ("Available versions: " +:+ join ", " (str_int <$> x :: V))],
     Done (x :: V)).
Proof. reflexivity. Qed.

(** C4. A non-empty version set comes back unchanged, with no call on the
    client.  On the empty set with auto-generation on, [generate_version] is
    called once; when it answers and the answer coerces to an integer the
    block ends with the singleton of that integer, and otherwise it exits
    with status 1.  On the empty set with auto-generation off, the block
    exits with status 1 and calls nothing. *)
Theorem ensure_version_exists_spec (w : world) :
  (∀ auto x V,
     result (available_versions w auto (x :: V)) = Done (x :: V)
     ∧ List.filter is_remote_call (trace (available_versions w auto (x :: V)))
       = [])
  ∧ List.filter is_remote_call (trace (available_versions w true []))
    = [CallGenerateVersion generate_settings]
  ∧ result (available_versions w true [])
    = match rf_generate_version w generate_settings with
      | inl _ => Exit 1
      | inr answer =>
          match py_int answer with
          | IntOk generated => Done [generated]
          | IntRaises _ => Exit 1
          end
      end
  ∧ result (available_versions w false []) = Exit 1
  ∧ List.filter is_remote_call (trace (available_versions w false [])) = [].
Proof.
  split; [by intros auto x V|].
  unfold available_versions, call, int_.
  destruct (rf_generate_version w generate_settings) as [e|answer]; simpl.
  - done.
  - destruct (py_int answer) as [g|c]; simpl; done.
Qed.

(** ** The download and its retry (lines 115-128) *)

(** C3. When the download of version [v] fails: if [v] is not the maximum
    [m] of the version set, the block asks for exactly one more download,
    of [m] with the same format, destination and overwrite flag, and ends as
    that second download ends; if [v] is the maximum, no second download is
    asked for and the error of the first leaves the block: whatever was to
    follow is not run, the interpreter reports that error and the process
    ends with status 1. *)
Theorem download_retry_spec (w : world) (v : Z) (V : list Z) (m : Z)
    (fmt dest : string) (ow : bool) (e : exn) :
  VersionSet V → is_max m V →
  rf_download w v fmt dest ow = inl e →
  (v ≠ m →
     List.filter is_remote_call (trace (dataset w v V fmt dest ow))
     = [CallDownload v fmt dest ow; CallDownload m fmt dest ow]
     ∧ result (dataset w v V fmt dest ow)
       = match rf_download w m fmt dest ow with
         | inl e' => Raise e'
         | inr location => Done location
         end)
  ∧ (v = m →
     List.filter is_remote_call (trace (dataset w v V fmt dest ow))
     = [CallDownload v fmt dest ow]
     ∧ result (dataset w v V fmt dest ow) = Raise e
     ∧ ∀ rest : string → M unit,
         interpreter (location <- dataset w v V fmt dest ow ;; rest location)
         = (trace (dataset w v V fmt dest ow) ++ [Traceback e], 1)).
Proof.
  intros HV Hm Hfail.
  pose proof (VersionSet_max_last V m HV Hm) as Hlast.
  unfold dataset, download, call, index_last.
  rewrite Hfail, Hlast. simpl. split.
  - intros Hne. apply Z.eqb_neq in Hne. rewrite Hne. simpl.
    destruct (rf_download w m fmt dest ow); simpl; done.
  - intros ->. rewrite Z.eqb_refl. simpl. done.
Qed.

(** ** Which versions are ever asked for *)

Lemma Forall_trace_bind {A B} (P : event → Prop) (m : M A) (k : A -> M B) :
  Forall P (trace m) →
  (∀ a, result m = Done a → Forall P (trace (k a))) →
  Forall P (trace (bind m k)).
Proof.
  intros Hm Hk. rewrite trace_bind. apply Forall_app. split; [done|].
  destruct (result m); [by apply Hk|constructor|constructor].
Qed.

Lemma Forall_trace_print {A} (P : event → Prop) line (k : M A) :
  P (Print line) → Forall P (trace k) → Forall P (trace (print line ;; k)).
Proof.
  intros HP Hk. apply Forall_trace_bind; [by repeat constructor|done].
Qed.

Lemma target_version_member r V t v :
  target_version r V = (t, Done v) → v ∈ V ∧ Forall no_download t.
Proof.
  unfold target_version, index_last. case_bool_decide as Hin.
  - intros [= <- <-]. split; [done|constructor].
  - destruct (last V) as [m|] eqn:Hlast; simpl; [|discriminate].
    intros [= <- <-]. split; [by apply last_elem|by repeat constructor].
Qed.

Lemma target_version_trace r V : Forall no_download (trace (target_version r V)).
Proof.
  unfold target_version, index_last. case_bool_decide; [constructor|].
  destruct (last V); simpl; by repeat constructor.
Qed.

Lemma dataset_asks_within w v V fmt dest ow :
  v ∈ V → Forall (asks_within V) (trace (dataset w v V fmt dest ow)).
Proof.
  intros Hv. unfold dataset, download, call, index_last.
  destruct (rf_download w v fmt dest ow) as [e|loc]; simpl;
    [|by repeat constructor].
  destruct (last V) as [m|] eqn:Hlast; simpl; [|by repeat constructor].
  pose proof (last_elem V m Hlast) as Hm.
  destruct (v =? m); simpl; [by repeat constructor|].
  destruct (rf_download w m fmt dest ow); simpl; by repeat constructor.
Qed.

Lemma verification_trace w location (P : event → Prop) :
  (∀ line, P (Print line)) → Forall P (trace (verification w location)).
Proof.
  intros HP. unfold verification.
  destruct (fs_exists w (Path location)); by repeat constructor.
Qed.

Lemma fetch_asks_within w r V : Forall (asks_within V) (trace (fetch w r V)).
Proof.
  unfold fetch. apply Forall_trace_bind.
  - eapply Forall_impl; [apply target_version_trace|].
    by intros [] H.
  - intros target Htarget.
    destruct (target_version r V) as [t o] eqn:Ht. simpl in Htarget. subst o.
    apply target_version_member in Ht as [Hin _].
    apply Forall_trace_print; [done|].
    apply Forall_trace_bind; [by apply dataset_asks_within|].
    intros location _.
    repeat (apply Forall_trace_print; [done|]).
    by apply verification_trace.
Qed.

Lemma check_dependencies_trace w : Forall no_download (trace (check_dependencies w)).
Proof.
  unfold check_dependencies, missing.
  destruct (have_roboflow w), (have_dotenv w); by repeat constructor.
Qed.

Lemma api_key_trace w : Forall no_download (trace (api_key w)).
Proof.
  unfold api_key. destruct (getenv w "ROBOFLOW_API_KEY") as [key|];
    [destruct (String.eqb key "")|]; by repeat constructor.
Qed.

Lemma int_trace value : trace (int_ value) = [].
Proof. unfold int_. by destruct (py_int value). Qed.

Lemma call__trace (P : event → Prop) ev answer :
  P ev → Forall P (trace (call_ ev answer)).
Proof. intros HP. unfold call_. destruct answer; by repeat constructor. Qed.

Lemma call_trace {A} (P : event → Prop) ev (answer : exn + A) :
  P ev → Forall P (trace (call ev answer)).
Proof. intros HP. unfold call. destruct answer; by repeat constructor. Qed.

Lemma connect_and_list_trace w key :
  Forall no_download (trace (connect_and_list w key)).
Proof.
  unfold connect_and_list.
  apply Forall_trace_print; [done|].
  apply Forall_trace_bind; [by apply call__trace|intros _ _].
  apply Forall_trace_bind; [by apply call__trace|intros _ _].
  apply Forall_trace_bind; [by apply call__trace|intros _ _].
  apply Forall_trace_bind; [by apply call_trace|intros versions _].
  rewrite extract_version_numbers_trace. constructor.
Qed.

Lemma available_versions_trace w auto listed :
  Forall no_download (trace (available_versions w auto listed)).
Proof.
  destruct listed as [|x V]; [|by repeat constructor].
  destruct auto; [|by repeat constructor].
  unfold available_versions, call, int_.
  destruct (rf_generate_version w generate_settings) as [e|answer]; simpl;
    [by repeat constructor|].
  destruct (py_int answer); simpl; by repeat constructor.
Qed.

Lemma available_versions_VersionSet w auto listed t V :
  VersionSet listed →
  available_versions w auto listed = (t, Done V) →
  VersionSet V ∧ V ≠ [].
Proof.
  intros Hlisted. destruct listed as [|x L].
  - destruct auto; [|discriminate].
    unfold available_versions, call, int_.
    destruct (rf_generate_version w generate_settings) as [e|answer]; simpl;
      [discriminate|].
    destruct (py_int answer) as [g|c]; simpl; [|discriminate].
    intros [= _ <-]. split; [|done]. unfold VersionSet. by repeat constructor.
  - rewrite available_versions_nonempty. intros [= _ <-]. done.
Qed.

Lemma resolve_trace w : Forall no_download (trace (resolve w)).
Proof.
  unfold resolve.
  apply Forall_trace_bind; [apply check_dependencies_trace|intros _ _].
  apply Forall_trace_bind; [apply api_key_trace|intros key _].
  apply Forall_trace_bind; [|intros requested _].
  { unfold VERSION. rewrite int_trace. constructor. }
  apply Forall_trace_bind; [apply connect_and_list_trace|intros listed _].
  apply Forall_trace_bind; [apply available_versions_trace|intros V _].
  constructor.
Qed.

(** What the discovery steps hand on is a non-empty version set. *)
Lemma resolve_VersionSet w t r V :
  resolve w = (t, Done (r, V)) → VersionSet V ∧ V ≠ [].
Proof.
  unfold resolve. intros H.
  apply bind_Done_inv in H as (? & ? & ? & _ & H & _).
  apply bind_Done_inv in H as (? & key & ? & _ & H & _).
  apply bind_Done_inv in H as (? & requested & ? & _ & H & _).
  apply bind_Done_inv in H as (? & listed & ? & Hlist & H & _).
  apply bind_Done_inv in H as (? & V' & ? & Hav & H & _).
  injection H as _ _ <-.
  eapply available_versions_VersionSet; [|exact Hav].
  unfold connect_and_list in Hlist.
  do 5 (apply bind_Done_inv in Hlist as (? & ? & ? & _ & Hlist & _)).
  by eapply extract_version_numbers_VersionSet.
Qed.

(** C5. Whenever the script asks the client for a download, at the first
    attempt or at the retry, the discovery steps have ended with a version
    set [V] (ascending, without repeats, non-empty) and the version asked
    for is a member of [V]. *)
Theorem download_version_is_available (w : world) (v : Z)
    (fmt dest : string) (ow : bool) :
  CallDownload v fmt dest ow ∈ trace (main w) →
  ∃ t r V, resolve w = (t, Done (r, V)) ∧ VersionSet V ∧ v ∈ V.
Proof.
  rewrite main_resolve_fetch, trace_bind. intros Hin.
  apply elem_of_app in Hin as [Hin|Hin].
  - pose proof (proj1 (Forall_forall _ _) (resolve_trace w) _ Hin) as Hno.
    discriminate Hno.
  - destruct (resolve w) as [t [[r V]| |]] eqn:Hres; simpl in Hin;
      try by apply elem_of_nil in Hin.
    exists t, r, V. split; [done|].
    split; [by apply (resolve_VersionSet w t r V)|].
    exact (proj1 (Forall_forall _ _) (fetch_asks_within w r V) _ Hin).
Qed.

Lemma download_retry_spec_witness :
  (1 ≠ 3 →
     List.filter is_remote_call
       (trace (dataset demo_world 1 [1; 3] "yolov8" "./dataset" true))
     = [CallDownload 1 "yolov8" "./dataset" true;
        CallDownload 3 "yolov8" "./dataset" true]
     ∧ result (dataset demo_world 1 [1; 3] "yolov8" "./dataset" true)
       = match rf_download demo_world 3 "yolov8" "./dataset" true with
         | inl e' => Raise e'
         | inr location => Done location
         end)
  ∧ (1 = 3 →
     List.filter is_remote_call
       (trace (dataset demo_world 1 [1; 3] "yolov8" "./dataset" true))
     = [CallDownload 1 "yolov8" "./dataset" true]
     ∧ result (dataset demo_world 1 [1; 3] "yolov8" "./dataset" true)
       = Raise (Exn (OtherError "RuntimeError") (PStr "export missing"))
     ∧ ∀ rest : string → M unit,
         interpreter
           (location <- dataset demo_world 1 [1; 3] "yolov8" "./dataset" true ;;
            rest location)
         = (trace (dataset demo_world 1 [1; 3] "yolov8" "./dataset" true)
            ++ [Traceback
                  (Exn (OtherError "RuntimeError") (PStr "export missing"))],
            1)).
Proof.
  apply (download_retry_spec demo_world 1 [1; 3] 3 "yolov8" "./dataset" true
           (Exn (OtherError "RuntimeError") (PStr "export missing"))).
  - unfold VersionSet. repeat constructor.
  - split; [apply list_elem_of_further, list_elem_of_here|].
    intros x Hx. apply elem_of_cons in Hx as [->|Hx]; [lia|].
    apply list_elem_of_singleton in Hx. lia.
  - reflexivity.
Defined.

Lemma download_version_is_available_witness :
  ∃ t r V, resolve demo_world = (t, Done (r, V)) ∧ VersionSet V ∧ 3 ∈ V.
Proof.
  apply (download_version_is_available demo_world 3 "yolov8" "./dataset" true).
  vm_compute. do 8 apply list_elem_of_further. apply list_elem_of_here.
Defined.

(** ** Configuration (lines 31-50) *)

(** C6. When the API key variable is absent or empty, the process ends with
    status 1 and has made no call on the remote client. *)
Theorem missing_api_key_exits (w : world) :
  getenv w "ROBOFLOW_API_KEY" = None ∨ getenv w "ROBOFLOW_API_KEY" = Some "" →
  (run w).2 = 1
  ∧ List.filter is_remote_call (run w).1 = []
  ∧ result (main w) = Exit 1.
Proof.
  intros Hkey. unfold run, main, check_dependencies, missing, api_key.
  destruct (have_roboflow w), (have_dotenv w); simpl; try done;
    destruct Hkey as [-> | ->]; simpl; done.
Qed.

Lemma missing_api_key_exits_witness :
  (run (with_environ demo_world ∅)).2 = 1
  ∧ List.filter is_remote_call (run (with_environ demo_world ∅)).1 = []
  ∧ result (main (with_environ demo_world ∅)) = Exit 1.
Proof.
  apply (missing_api_key_exits (with_environ demo_world ∅)).
  left. reflexivity.
Defined.

(** C7. When the requested-version variable holds a string [int] rejects,
    the process ends with status 1, has made no call on the remote client
    and has written an error; nothing is put in the value's place.  With
    both packages installed and the key set, what it writes is the
    interpreter's report of the [ValueError] on that very string. *)
Theorem malformed_version_fails_fast (w : world) :
  int_of_str (getenv_or w "ROBOFLOW_VERSION" "1") = None →
  (run w).2 = 1
  ∧ List.filter is_remote_call (run w).1 = []
  ∧ (run w).1 ≠ []
  ∧ (∀ key, missing w = [] → api_key w = ([], Done key) →
       run w = ([Traceback (Exn ValueError
                              (PStr (getenv_or w "ROBOFLOW_VERSION" "1")))],
                1)).
Proof.
  intros Hbad.
  unfold run, main, check_dependencies, missing, api_key, VERSION, int_.
  simpl py_int. rewrite Hbad.
  destruct (have_roboflow w), (have_dotenv w); simpl;
    try (repeat split; try done; intros key Hm; discriminate Hm).
  destruct (getenv w "ROBOFLOW_API_KEY") as [key|];
    [destruct (String.eqb key "")|]; simpl;
    repeat split; try done; intros key' _ Hk; discriminate Hk.
Qed.

Lemma malformed_version_fails_fast_witness :
  (run bad_version_world).2 = 1
  ∧ List.filter is_remote_call (run bad_version_world).1 = []
  ∧ (run bad_version_world).1 ≠ []
  ∧ (∀ key, missing bad_version_world = [] →
       api_key bad_version_world = ([], Done key) →
       run bad_version_world
       = ([Traceback
             (Exn ValueError
                (PStr (getenv_or bad_version_world "ROBOFLOW_VERSION" "1")))],
          1)).
Proof.
  apply (malformed_version_fails_fast bad_version_world).
  vm_compute. reflexivity.
Defined.

Example malformed_version_run :
  run bad_version_world = ([Traceback (Exn ValueError (PStr "1.5"))], 1).
Proof. vm_compute. reflexivity. Qed.

Lemma elem_of_falsy_tokens (s : string) :
  s ∈ falsy_tokens ↔ s = "0" ∨ s = "false" ∨ s = "no".
Proof.
  unfold falsy_tokens. rewrite !elem_of_union, !elem_of_singleton. tauto.
Qed.

Lemma toggle_false (value : string) :
  toggle value = false
  ↔ lower value = "0" ∨ lower value = "false" ∨ lower value = "no".
Proof.
  unfold toggle. rewrite bool_decide_eq_false, <- elem_of_falsy_tokens.
  split; [apply dec_stable|by intros ? ?].
Qed.

(** C8, as worded, fails: "FALSE" is none of the three tokens and still
    turns the toggle off. *)
Lemma toggle_capitals_counterexample :
  getenv shouting_world "ROBOFLOW_AUTO_GENERATE_VERSION" = Some "FALSE"
  ∧ ("FALSE" ∉ falsy_tokens)
  ∧ AUTO_GENERATE_VERSION shouting_world = false.
Proof.
  split; [reflexivity|]. split; [|vm_compute; reflexivity].
  rewrite elem_of_falsy_tokens. intros [H|[H|H]]; discriminate H.
Qed.

(** C8, amended. Each of the two toggles is false exactly when its variable
    is set to a string whose lower-cased form is one of "0", "false", "no";
    it is true for every other value and when the variable is unset. *)
Theorem toggle_spec (w : world) :
  (AUTO_GENERATE_VERSION w = false
   ↔ ∃ value, getenv w "ROBOFLOW_AUTO_GENERATE_VERSION" = Some value
       ∧ (lower value = "0" ∨ lower value = "false" ∨ lower value = "no"))
  ∧ (OVERWRITE_EXISTING w = false
     ↔ ∃ value, getenv w "ROBOFLOW_OVERWRITE" = Some value
         ∧ (lower value = "0" ∨ lower value = "false" ∨ lower value = "no")).
Proof.
  unfold AUTO_GENERATE_VERSION, OVERWRITE_EXISTING, getenv_or, getenv.
  split.
  - destruct (environ w !! "ROBOFLOW_AUTO_GENERATE_VERSION") as [value|].
    + rewrite toggle_false. split; [by eauto|]. by intros (? & [= <-] & ?).
    + split; [discriminate|]. by intros (? & [=] & _).
  - destruct (environ w !! "ROBOFLOW_OVERWRITE") as [value|].
    + rewrite toggle_false. split; [by eauto|]. by intros (? & [= <-] & ?).
    + split; [discriminate|]. by intros (? & [=] & _).
Qed.

(** ** The summary (lines 135-147) *)

Lemma pretty_N_char_comma_free x : pretty_N_char x ≠ ","%char.
Proof. unfold pretty_N_char. by repeat case_match. Qed.

Lemma pretty_N_go_comma_free x s :
  comma_free s → comma_free (pretty_N_go x s).
Proof.
  revert s. induction (N.lt_wf_0 x) as [x _ IH]; intros s Hs.
  destruct (decide (0 < x)%N) as [Hpos|Hzero].
  - rewrite pretty_N_go_step by done. apply IH.
    + apply N.div_lt; lia.
    + split; [apply pretty_N_char_comma_free|done].
  - assert (x = 0%N) as -> by lia. by rewrite pretty_N_go_0.
Qed.

Lemma str_int_nat_comma_free (n : nat) : comma_free (pretty (Z.of_nat n)).
Proof.
  unfold pretty, pretty_Z.
  destruct (Z.of_nat n) as [|p|p] eqn:Hn; [by repeat split| |lia].
  unfold pretty, pretty_positive, pretty, pretty_N.
  case_decide; [done|]. by apply pretty_N_go_comma_free.
Qed.

Lemma comma_free_app_inj s s' r r' :
  comma_free s → comma_free s' →
  s +:+ String "," r = s' +:+ String "," r' → s = s' ∧ r = r'.
Proof.
  revert s'. induction s as [|c s IH]; intros [|c' s']; simpl.
  - intros _ _ [= ->]. done.
  - intros _ [Hc _] [= <- _]. done.
  - intros [Hc _] _ [= -> _]. done.
  - intros [_ Hs] [_ Hs'] [= -> Heq].
    destruct (IH s' Hs Hs' Heq) as [-> ->]. done.
Qed.

Lemma string_app_cancel (p x y : string) : p +:+ x = p +:+ y → x = y.
Proof. induction p as [|c p IH]; simpl; [done|]. intros [= H]. by apply IH. Qed.

Lemma yes_no_inj (v v' : bool) r r' :
  (if v then "yes" else "no") +:+ String "," r
  = (if v' then "yes" else "no") +:+ String "," r' →
  v = v' ∧ r = r'.
Proof. destruct v, v'; simpl; intros [= ->]; done. Qed.

(** The two counts and the two flags can be read back from the line. *)
Lemma summary_line_inj i l v t i' l' v' t' :
  summary_line i l v t = summary_line i' l' v' t' →
  i = i' ∧ l = l' ∧ v = v' ∧ t = t'.
Proof.
  unfold summary_line. intros H.
  apply string_app_cancel in H.
  apply (comma_free_app_inj _ _ (" train/labels=" +:+ _)
           (" train/labels=" +:+ _))
    in H as [Hi H]; [|apply str_int_nat_comma_free..].
  apply string_app_cancel in H.
  apply (comma_free_app_inj _ _ (" valid_split=" +:+ _)
           (" valid_split=" +:+ _))
    in H as [Hl H]; [|apply str_int_nat_comma_free..].
  apply string_app_cancel in H.
  apply (yes_no_inj _ _ (" test_split=" +:+ _) (" test_split=" +:+ _))
    in H as [Hv H].
  apply string_app_cancel in H.
  apply (inj pretty) in Hi. apply (inj pretty) in Hl.
  apply Nat2Z.inj in Hi. apply Nat2Z.inj in Hl.
  repeat split; try done. by destruct t, t'.
Qed.

(** C9. When the location exists, the step prints one line,
    "Verification summary: train/images=<n>, train/labels=<m>,
    valid_split=<yes|no>, test_split=<yes|no>", where n is the number of
    entries matching [train/images/*] in decimal, m the number matching
    [train/labels/*.txt], and each flag reads "yes" when [valid] (resp.
    [test]) exists under the location and "no" when it does not; the two
    counts and the two flags can be read back from the line.  When the
    location does not exist the step prints nothing.  Either way it ends
    normally.  On the sample destination (ten images, eight label files,
    neither directory) the line is the one the specification gives. *)
Theorem verification_spec (w : world) (location : string) :
  verification w location
  = (if fs_exists w (Path location)
     then ([Print
              ("Verification summary: train/images="
               +:+ pretty (Z.of_nat
                     (length (fs_glob w [location; "train"; "images"] "*")))
               +:+ ", train/labels="
               +:+ pretty (Z.of_nat
                     (length (fs_glob w [location; "train"; "labels"] "*.txt")))
               +:+ ", valid_split="
               +:+ (if fs_exists w [location; "valid"] then "yes" else "no")
               +:+ ", test_split="
               +:+ (if fs_exists w [location; "test"] then "yes" else "no"))],
           Done tt)
     else ([], Done tt))
  ∧ (∀ images labels valid test,
      summary_line images labels valid test
      = summary_line
          (length (fs_glob w [location; "train"; "images"] "*"))
          (length (fs_glob w [location; "train"; "labels"] "*.txt"))
          (fs_exists w [location; "valid"])
          (fs_exists w [location; "test"]) →
      images = length (fs_glob w [location; "train"; "images"] "*")
      ∧ labels = length (fs_glob w [location; "train"; "labels"] "*.txt")
      ∧ valid = fs_exists w [location; "valid"]
      ∧ test = fs_exists w [location; "test"])
  ∧ verification demo_world "./dataset"
    = ([Print "Verification summary: train/images=10, train/labels=8, valid_split=no, test_split=no"],
       Done tt)
  ∧ summary_line 3 0 true true
    = "Verification summary: train/images=3, train/labels=0, valid_split=yes, test_split=yes".
Proof.
  split; [|split; [|split]].
  - unfold verification.
    destruct (fs_exists w (Path location)); [|reflexivity].
    destruct (fs_exists w [location; "valid"]) eqn:Hvalid,
      (fs_exists w [location; "test"]) eqn:Htest;
      unfold Path, truediv; simpl app; rewrite Hvalid, Htest; reflexivity.
  - intros images labels valid test. apply summary_line_inj.
  - vm_compute. reflexivity.
  - vm_compute. reflexivity.
Qed.

(** The example of the specification: ten images, eight label files, no
    [valid] and no [test] directory. *)
Example verification_demo :
  verification demo_world "./dataset"
  = ([Print "Verification summary: train/images=10, train/labels=8, valid_split=no, test_split=no"],
     Done tt).
Proof. vm_compute. reflexivity. Qed.

(** ** More on version-entry parsing (lines 57-67) *)

Lemma sorted_set_ext xs ys :
  (∀ z, z ∈ xs ↔ z ∈ ys) → sorted_set xs = sorted_set ys.
Proof.
  intros H. unfold sorted_set. f_equal. f_equal.
  apply leibniz_equiv, set_equiv. intros z.
  by rewrite !elem_of_list_to_set.
Qed.

Lemma extract_loop_app items rest acc :
  extract_loop (items ++ rest) acc
  = (version_numbers <- extract_loop items acc ;;
     extract_loop rest version_numbers).
Proof.
  revert acc. induction items as [|item items IH]; intros acc.
  - simpl app. by rewrite (bind_ret_l acc).
  - simpl. rewrite bind_assoc. apply bind_ext. intros vn. apply IH.
Qed.

Lemma extract_loop_skipped item acc c :
  py_int (entry_value item) = IntRaises c →
  TypeError_or_ValueError c = true →
  extract_loop [item] acc = ret acc.
Proof.
  intros Hint Hc. simpl. fold (entry_value item). unfold int_.
  rewrite Hint. simpl. by rewrite Hc.
Qed.

Lemma py_int_classes value c :
  py_int value = IntRaises c →
  c = TypeError ∨ c = ValueError ∨ c = OverflowError.
Proof.
  destruct value as [|b|z|f|s|l|d|attrs]; simpl; try (intros [= <-]; tauto).
  - destruct f; intros [= <-]; tauto.
  - destruct (int_of_str s); intros [= <-]; tauto.
Qed.

Lemma extract_loop_result items acc :
  (∃ V, result (extract_loop items acc) = Done V)
  ∨ ∃ value, result (extract_loop items acc) = Raise (Exn OverflowError value).
Proof.
  revert acc. induction items as [|item items IH]; intros acc; [left; by eexists|].
  simpl. fold (entry_value item). unfold int_.
  destruct (py_int (entry_value item)) as [z|c] eqn:Hint; simpl.
  - specialize (IH (acc ++ [z])).
    destruct (extract_loop items (acc ++ [z])) as [t r]. exact IH.
  - destruct (py_int_classes _ _ Hint) as [-> | [-> | ->]]; simpl.
    + specialize (IH acc). destruct (extract_loop items acc) as [t r]. exact IH.
    + specialize (IH acc). destruct (extract_loop items acc) as [t r]. exact IH.
    + right. by eexists.
Qed.

Lemma skippable_obj_int z : skippable (obj_entry (PInt z)).
Proof. intros c H. vm_compute in H. discriminate H. Qed.

Lemma skippable_dict_str s : skippable (dict_entry (PStr s)).
Proof.
  intros c. unfold dict_entry, entry_value. simpl.
  rewrite lookup_singleton_eq. simpl.
  destruct (int_of_str s); intros [= <-]; done.
Qed.

(** X2. On lists whose entries either coerce or are rejected with
    [TypeError] or [ValueError], the result depends only on which integers the
    entries coerce to: order, repeats and rejected entries make no
    difference. *)
Theorem extract_version_numbers_same_integers (items items' : list pyval) :
  Forall skippable items → Forall skippable items' →
  (∀ z, (∃ item, item ∈ items ∧ coerced item = Some z)
        ↔ (∃ item, item ∈ items' ∧ coerced item = Some z)) →
  _extract_version_numbers (PList items)
  = _extract_version_numbers (PList items').
Proof.
  intros Hall Hall' Hsame. unfold _extract_version_numbers.
  rewrite !py_or_list, !bind_ret_l.
  rewrite (extract_loop_skippable items [] Hall).
  rewrite (extract_loop_skippable items' [] Hall').
  simpl. do 2 f_equal. apply sorted_set_ext. intros z.
  by rewrite !list_elem_of_omap.
Qed.

(** X3. An entry [int] rejects with [TypeError] or [ValueError] (no
    [version] at all, [None], a non-numeric string, ...) can be dropped from
    any position of any list without changing what the helper does. *)
Theorem extract_version_numbers_drop_rejected
    (before after : list pyval) (entry : pyval) (c : exn_class) :
  py_int (entry_value entry) = IntRaises c →
  TypeError_or_ValueError c = true →
  _extract_version_numbers (PList (before ++ entry :: after))
  = _extract_version_numbers (PList (before ++ after)).
Proof.
  intros Hint Hc. unfold _extract_version_numbers.
  rewrite !py_or_list, !bind_ret_l. f_equal.
  rewrite !extract_loop_app. apply bind_ext. intros vn.
  change (entry :: after) with ([entry] ++ after).
  rewrite extract_loop_app, (extract_loop_skipped entry vn c Hint Hc).
  by rewrite bind_ret_l.
Qed.

Lemma extract_version_numbers_drop_rejected_witness :
  _extract_version_numbers
    (PList ([obj_entry (PInt 2)] ++ PDict ∅ :: [dict_entry (PStr "1")]))
  = _extract_version_numbers
      (PList ([obj_entry (PInt 2)] ++ [dict_entry (PStr "1")])).
Proof.
  apply (extract_version_numbers_drop_rejected
           [obj_entry (PInt 2)] [dict_entry (PStr "1")] (PDict ∅) TypeError);
    reflexivity.
Defined.

(** X4. Whatever the listing is, the helper prints nothing, calls nothing
    and never exits.  When it returns, the list is in ascending order
    without repeats.  It can fail in two ways only: [TypeError] on the
    listing itself when that is a true value that cannot be iterated, and
    [OverflowError] from [int]. *)
Theorem extract_version_numbers_outcomes (version_objects : pyval) :
  trace (_extract_version_numbers version_objects) = []
  ∧ match result (_extract_version_numbers version_objects) with
    | Done V => StronglySorted Z.lt V
    | Exit _ => False
    | Raise e =>
        e = Exn TypeError version_objects
        ∨ ∃ value, e = Exn OverflowError value
    end.
Proof.
  split; [apply extract_version_numbers_trace|].
  unfold _extract_version_numbers.
  destruct (py_iter (py_or version_objects (PList []))) as [t [items| |e]]
    eqn:Hiter.
  - assert (t = []) as ->.
    { unfold py_iter in Hiter.
      destruct (py_or version_objects (PList [])); by inversion Hiter. }
    change ([], Done items) with (@ret (list pyval) items).
    rewrite bind_ret_l.
    destruct (extract_loop_result items []) as [[V HV]|[value Hraise]].
    + destruct (extract_loop items []) as [t' r]. simpl in HV. subst r.
      simpl. apply sorted_set_VersionSet.
    + destruct (extract_loop items []) as [t' r]. simpl in Hraise. subst r.
      simpl. right. by eexists.
  - unfold py_iter in Hiter.
    destruct (py_or version_objects (PList [])); discriminate Hiter.
  - simpl. left. unfold py_iter, py_or in Hiter.
    destruct (truthy version_objects) eqn:Htruthy; [|discriminate Hiter].
    destruct version_objects; inversion Hiter; reflexivity.
Qed.

Lemma extract_loop_strings (names : list string) acc :
  extract_loop (PStr <$> names) acc = ret acc.
Proof.
  induction names as [|name names IH]; [reflexivity|].
  change (PStr <$> name :: names) with ([PStr name] ++ (PStr <$> names)).
  rewrite extract_loop_app.
  rewrite (extract_loop_skipped (PStr name) acc TypeError) by reflexivity.
  by rewrite bind_ret_l.
Qed.

(** X5. A listing that is a dict or a string is iterated all the same (over
    its keys, its characters); none of these has a [version], so the helper
    returns the empty list.  So does every listing that counts as false. *)
Theorem extract_version_numbers_not_a_list :
  (∀ d, _extract_version_numbers (PDict d) = ([], Done []))
  ∧ (∀ s, _extract_version_numbers (PStr s) = ([], Done []))
  ∧ (∀ v, truthy v = false → _extract_version_numbers v = ([], Done [])).
Proof.
  assert (Hempty : _extract_version_numbers (PList []) = ([], Done []))
    by (vm_compute; reflexivity).
  assert (Hfalse : ∀ v, truthy v = false →
            _extract_version_numbers v = ([], Done [])).
  { intros v Hv. unfold _extract_version_numbers, py_or. rewrite Hv.
    exact Hempty. }
  split; [|split; [|exact Hfalse]].
  - intros d. destruct (truthy (PDict d)) eqn:Ht; [|by apply Hfalse].
    unfold _extract_version_numbers, py_or. rewrite Ht.
    unfold py_iter. rewrite bind_ret_l, extract_loop_strings, bind_ret_l.
    vm_compute. reflexivity.
  - intros s. destruct (truthy (PStr s)) eqn:Ht; [|by apply Hfalse].
    unfold _extract_version_numbers, py_or. rewrite Ht.
    unfold py_iter. rewrite bind_ret_l.
    replace ((fun c => PStr (String c "")) <$> String.list_ascii_of_string s)
      with (PStr <$> ((fun c => String c "") <$> String.list_ascii_of_string s))
      by (symmetry; apply (list_fmap_compose (fun c => String c "") PStr)).
    rewrite extract_loop_strings, bind_ret_l.
    vm_compute. reflexivity.
Qed.

Lemma extract_version_numbers_skippable_witness :
  ∃ V, _extract_version_numbers
         (PList [dict_entry (PStr "3"); obj_entry (PInt 1);
                 dict_entry (PStr "bad")]) = ([], Done V)
     ∧ VersionSet V
     ∧ ∀ z, z ∈ V ↔ ∃ item,
         item ∈ [dict_entry (PStr "3"); obj_entry (PInt 1);
                 dict_entry (PStr "bad")] ∧ coerced item = Some z.
Proof.
  apply (extract_version_numbers_skippable
           [dict_entry (PStr "3"); obj_entry (PInt 1);
            dict_entry (PStr "bad")]).
  repeat constructor;
    first [apply skippable_obj_int | apply skippable_dict_str].
Defined.

Lemma extract_version_numbers_same_integers_witness :
  _extract_version_numbers (PList [obj_entry (PInt 1); obj_entry (PInt 3)])
  = _extract_version_numbers
      (PList [obj_entry (PInt 3); obj_entry (PInt 1); obj_entry (PInt 3)]).
Proof.
  apply (extract_version_numbers_same_integers
           [obj_entry (PInt 1); obj_entry (PInt 3)]
           [obj_entry (PInt 3); obj_entry (PInt 1); obj_entry (PInt 3)]).
  - repeat constructor; apply skippable_obj_int.
  - repeat constructor; apply skippable_obj_int.
  - intros z. split; intros (item & Hin & Hz); exists item; (split; [|done]);
      repeat (apply elem_of_cons in Hin as [->|Hin]);
      try (by apply elem_of_nil in Hin);
      auto using list_elem_of_here, list_elem_of_further.
Defined.

(** ** The dependency check (lines 13-27) *)

(** X6. When either package cannot be imported, the process prints
    "Missing dependencies. Install with:" and then "  pip install " followed
    by the missing names and nothing else: "roboflow" when only that one is
    missing, "python-dotenv" when only that one is, "roboflow python-dotenv"
    when both are.  It ends with status 1: no later part of the script
    runs, whatever the environment holds. *)
Theorem missing_dependency_exits (w : world) :
  have_roboflow w = false ∨ have_dotenv w = false →
  run w
  = ([Print "Missing dependencies. Install with:";
      Print (if have_roboflow w then "  pip install python-dotenv"
             else if have_dotenv w then "  pip install roboflow"
             else "  pip install roboflow python-dotenv")], 1).
Proof.
  intros H. unfold run, main, check_dependencies, missing.
  destruct (have_roboflow w), (have_dotenv w); simpl;
    try (destruct H; discriminate); reflexivity.
Qed.

Lemma missing_dependency_exits_witness :
  run (with_packages demo_world true false)
  = ([Print "Missing dependencies. Install with:";
      Print (if have_roboflow (with_packages demo_world true false)
             then "  pip install python-dotenv"
             else if have_dotenv (with_packages demo_world true false)
             then "  pip install roboflow"
             else "  pip install roboflow python-dotenv")], 1).
Proof.
  apply (missing_dependency_exits (with_packages demo_world true false)).
  right. reflexivity.
Defined.

(** ** The process as a whole *)

Lemma exits_bind {A B} (m : M A) (k : A -> M B) :
  exits_with_1 m → (∀ a, exits_with_1 (k a)) → exits_with_1 (bind m k).
Proof.
  intros Hm Hk code. destruct m as [t [a|c|e]]; simpl.
  - specialize (Hk a code). destruct (k a) as [t' r]. exact Hk.
  - intros [= <-]. by apply (Hm c).
  - discriminate.
Qed.

Lemma exits_print {A} line (k : M A) :
  exits_with_1 k → exits_with_1 (print line ;; k).
Proof. intros Hk. apply exits_bind; [by intros code|by intros _]. Qed.

Lemma exits_int value : exits_with_1 (int_ value).
Proof. unfold int_. destruct (py_int value); by intros code. Qed.

Lemma exits_call {A} ev (answer : exn + A) : exits_with_1 (call ev answer).
Proof. destruct answer; by intros code. Qed.

Lemma exits_call_ ev answer : exits_with_1 (call_ ev answer).
Proof. destruct answer; by intros code. Qed.

Lemma exits_extract v : exits_with_1 (_extract_version_numbers v).
Proof.
  unfold _extract_version_numbers. apply exits_bind.
  - unfold py_iter. destruct (py_or v (PList [])); by intros code.
  - intros items. apply exits_bind; [|by intros vn code].
    intros code Hexit.
    destruct (extract_loop_result items []) as [[V HV]|[value HV]];
      rewrite HV in Hexit; discriminate Hexit.
Qed.

Lemma exits_check_dependencies w : exits_with_1 (check_dependencies w).
Proof.
  unfold check_dependencies, missing.
  destruct (have_roboflow w), (have_dotenv w); intros code; simpl;
    by intros [= <-].
Qed.

Lemma exits_api_key w : exits_with_1 (api_key w).
Proof.
  unfold api_key. destruct (getenv w "ROBOFLOW_API_KEY") as [key|];
    [destruct (String.eqb key "")|]; intros code; simpl; by intros [= <-].
Qed.

Lemma exits_connect_and_list w key : exits_with_1 (connect_and_list w key).
Proof.
  unfold connect_and_list. apply exits_print.
  do 3 (apply exits_bind; [apply exits_call_|intros _]).
  apply exits_bind; [apply exits_call|intros versions]. apply exits_extract.
Qed.

Lemma exits_available_versions w auto listed :
  exits_with_1 (available_versions w auto listed).
Proof.
  destruct listed as [|x V]; [|by intros code].
  destruct auto; [|by intros code [= <-]].
  unfold available_versions, call, int_.
  destruct (rf_generate_version w generate_settings) as [e|answer]; simpl;
    [by intros code [= <-]|].
  destruct (py_int answer); simpl; intros code; by intros [= <-].
Qed.

Lemma exits_target_version r V : exits_with_1 (target_version r V).
Proof.
  unfold target_version, index_last. case_bool_decide; [by intros code|].
  destruct (last V); by intros code.
Qed.

Lemma exits_dataset w v V fmt dest ow :
  exits_with_1 (dataset w v V fmt dest ow).
Proof.
  unfold dataset, download, call, index_last.
  destruct (rf_download w v fmt dest ow) as [e|loc]; simpl; [|by intros code].
  destruct (last V) as [m|]; simpl; [|by intros code].
  destruct (v =? m); simpl; [by intros code|].
  destruct (rf_download w m fmt dest ow); by intros code.
Qed.

Lemma exits_verification w location : exits_with_1 (verification w location).
Proof.
  unfold verification. destruct (fs_exists w (Path location)); by intros code.
Qed.

Lemma exits_fetch w r V : exits_with_1 (fetch w r V).
Proof.
  unfold fetch. apply exits_bind; [apply exits_target_version|intros target].
  apply exits_print. apply exits_bind; [apply exits_dataset|intros location].
  do 3 apply exits_print. apply exits_verification.
Qed.

Lemma exits_main w : exits_with_1 (main w).
Proof.
  unfold main.
  apply exits_bind; [apply exits_check_dependencies|intros _].
  apply exits_bind; [apply exits_api_key|intros key].
  apply exits_bind; [apply exits_int|intros requested].
  apply exits_bind; [apply exits_connect_and_list|intros listed].
  apply exits_bind; [apply exits_available_versions|intros versions].
  apply exits_fetch.
Qed.

(** X7. The exit status of the process is 0 or 1, whatever the
    environment, the client and the file system do, and it is 0 exactly when
    the script ran to its last line. *)
Theorem exit_status_0_or_1 (w : world) :
  ((run w).2 = 0 ∨ (run w).2 = 1)
  ∧ ((run w).2 = 0 ↔ result (main w) = Done tt).
Proof.
  pose proof (exits_main w) as Hexit. unfold run, exits_with_1 in *.
  destruct (main w) as [t [[]|code|e]]; simpl in *.
  - split; [by left|done].
  - rewrite (Hexit code eq_refl). split; [by right|]. split; discriminate.
  - split; [by right|]. split; discriminate.
Qed.

Lemma dataset_Done w v V fmt dest ow t location :
  dataset w v V fmt dest ow = (t, Done location) →
  ∃ v', rf_download w v' fmt dest ow = inr location
        ∧ CallDownload v' fmt dest ow ∈ t.
Proof.
  unfold dataset, download, call, index_last.
  destruct (rf_download w v fmt dest ow) as [e|loc] eqn:Hfirst; simpl.
  - destruct (last V) as [m|]; simpl; [|discriminate].
    destruct (v =? m); simpl; [discriminate|].
    destruct (rf_download w m fmt dest ow) as [e'|loc] eqn:Hsecond; simpl;
      [discriminate|].
    intros [= <- <-]. exists m. split; [done|].
    do 3 apply list_elem_of_further. apply list_elem_of_here.
  - intros [= <- <-]. exists v. split; [done|]. apply list_elem_of_here.
Qed.

(** X8. The process ends with status 0 only if a download request was
    answered: some version was requested with the configured format,
    destination and overwrite flag, the client returned a dataset, and the
    location of that dataset was printed. *)
Theorem success_means_downloaded (w : world) :
  (run w).2 = 0 →
  ∃ v location,
    rf_download w v (FORMAT w) (DEST w) (OVERWRITE_EXISTING w) = inr location
    ∧ CallDownload v (FORMAT w) (DEST w) (OVERWRITE_EXISTING w) ∈ (run w).1
    ∧ Print ("Dataset location: " +:+ location) ∈ (run w).1.
Proof.
  intros Hzero.
  assert (Hdone : result (main w) = Done tt).
  { pose proof (exits_main w) as Hexit. unfold run, exits_with_1 in *.
    destruct (main w) as [t [[]|code|e]]; simpl in *; [done| |done].
    rewrite (Hexit code eq_refl) in Hzero. discriminate Hzero. }
  unfold run. destruct (main w) as [t o] eqn:Hmain. simpl in Hdone. subst o.
  simpl. rewrite main_resolve_fetch in Hmain.
  apply bind_Done_inv in Hmain as (t1 & [r V] & t2 & _ & Hfetch & ->).
  simpl in Hfetch. unfold fetch in Hfetch.
  apply bind_Done_inv in Hfetch as (t3 & target & t4 & _ & Hfetch & ->).
  apply bind_Done_inv in Hfetch as (t5 & [] & t6 & _ & Hfetch & ->).
  apply bind_Done_inv in Hfetch as (t7 & location & t8 & Hds & Hfetch & ->).
  apply bind_Done_inv in Hfetch as (t9 & [] & t10 & _ & Hfetch & ->).
  apply bind_Done_inv in Hfetch as (t11 & [] & t12 & Hloc & _ & ->).
  injection Hloc as <-.
  apply dataset_Done in Hds as (v & Hanswer & Hin).
  exists v, location. split; [done|]. split.
  - rewrite !elem_of_app. auto 10.
  - rewrite !elem_of_app. right. right. right. right. right. left.
    apply list_elem_of_here.
Qed.

Lemma success_means_downloaded_witness :
  ∃ v location,
    rf_download demo_world v (FORMAT demo_world) (DEST demo_world)
      (OVERWRITE_EXISTING demo_world) = inr location
    ∧ CallDownload v (FORMAT demo_world) (DEST demo_world)
        (OVERWRITE_EXISTING demo_world) ∈ (run demo_world).1
    ∧ Print ("Dataset location: " +:+ location) ∈ (run demo_world).1.
Proof.
  apply (success_means_downloaded demo_world). vm_compute. reflexivity.
Defined.

Lemma downloads_bind {A B} (m : M A) (k : A -> M B) (n1 n2 : nat) :
  (downloads m ≤ n1)%nat → (∀ a, (downloads (k a) ≤ n2)%nat) →
  (downloads (bind m k) ≤ n1 + n2)%nat.
Proof.
  intros Hm Hk. unfold downloads in *.
  rewrite trace_bind, List.filter_app, length_app.
  destruct (result m) as [a| |]; [specialize (Hk a)|simpl..]; lia.
Qed.

Lemma downloads_quiet {A} (m : M A) :
  Forall no_download (trace m) → downloads m = 0%nat.
Proof.
  unfold downloads. induction 1 as [|ev t Hev _ IH]; [done|].
  simpl. unfold no_download in Hev. by rewrite Hev.
Qed.

Lemma downloads_dataset w v V fmt dest ow :
  (downloads (dataset w v V fmt dest ow) ≤ 2)%nat.
Proof.
  unfold downloads, dataset, download, call, index_last.
  destruct (rf_download w v fmt dest ow) as [e|loc]; simpl; [|lia].
  destruct (last V) as [m|]; simpl; [|lia].
  destruct (v =? m); simpl; [lia|].
  destruct (rf_download w m fmt dest ow); simpl; lia.
Qed.

Lemma downloads_fetch w r V : (downloads (fetch w r V) ≤ 2)%nat.
Proof.
  unfold fetch.
  apply (downloads_bind _ _ 0 2);
    [by rewrite (downloads_quiet _ (target_version_trace r V))|intros target].
  apply (downloads_bind _ _ 0 2); [done|intros _].
  apply (downloads_bind _ _ 2 0); [apply downloads_dataset|intros location].
  do 3 (apply (downloads_bind _ _ 0 0); [done|intros _]).
  rewrite downloads_quiet; [done|]. by apply verification_trace.
Qed.

Lemma dataset_configured w v V :
  Forall (λ ev, is_download ev = true → configured_download w ev)
    (trace (dataset w v V (FORMAT w) (DEST w) (OVERWRITE_EXISTING w))).
Proof.
  unfold dataset, download, call, index_last.
  destruct (rf_download w v _ _ _) as [e|loc]; simpl.
  - destruct (last V) as [m|]; simpl.
    + destruct (v =? m); simpl;
        [|destruct (rf_download w m _ _ _); simpl];
        repeat constructor; try discriminate; intros _; by eexists.
    + repeat constructor; try discriminate. intros _; by eexists.
  - repeat constructor. intros _; by eexists.
Qed.

(** X9. A run makes at most two download requests, and every one of them
    carries the configured format, destination and overwrite flag. *)
Theorem at_most_two_downloads (w : world) :
  (downloads (main w) ≤ 2)%nat
  ∧ Forall (λ ev, is_download ev = true → configured_download w ev)
      (trace (main w)).
Proof.
  rewrite main_resolve_fetch. split.
  - apply (downloads_bind _ _ 0 2);
      [by rewrite (downloads_quiet _ (resolve_trace w))|].
    intros [r V]. apply downloads_fetch.
  - apply Forall_trace_bind.
    + eapply Forall_impl; [apply resolve_trace|].
      intros ev Hno Hyes. unfold no_download in Hno. congruence.
    + intros [r V] _. simpl. unfold fetch.
      apply Forall_trace_bind.
      * eapply Forall_impl; [apply target_version_trace|].
        intros ev Hno Hyes. unfold no_download in Hno. congruence.
      * intros target _. apply Forall_trace_print; [discriminate|].
        apply Forall_trace_bind; [apply dataset_configured|].
        intros location _.
        do 3 (apply Forall_trace_print; [discriminate|]).
        apply verification_trace. discriminate.
Qed.

Lemma fetch_single_version w r g :
  List.filter is_remote_call (trace (fetch w r [g]))
  = [CallDownload g (FORMAT w) (DEST w) (OVERWRITE_EXISTING w)].
Proof.
  unfold fetch, target_version, index_last, dataset, download, call,
    verification.
  case_bool_decide as Hin; [apply list_elem_of_singleton in Hin as ->|];
    simpl; destruct (rf_download w g _ _ _) as [e|location]; simpl;
    rewrite ?Z.eqb_refl; simpl; try reflexivity;
    match goal with
    | |- context [fs_exists w ?p] => destruct (fs_exists w p)
    end; reflexivity.
Qed.

(** X10. With a single available version (as after auto-generation), that
    version is selected whatever was requested, and it is asked for once:
    when its download fails there is nothing to fall back on and no second
    request is made. *)
Theorem single_version_one_download (w : world) (r g : Z) :
  result (target_version r [g]) = Done g
  ∧ List.filter is_remote_call (trace (fetch w r [g]))
    = [CallDownload g (FORMAT w) (DEST w) (OVERWRITE_EXISTING w)].
Proof.
  split; [|apply fetch_single_version].
  unfold target_version. case_bool_decide as Hin; [|reflexivity].
  by apply list_elem_of_singleton in Hin as ->.
Qed.

(** X11. When the discovery steps hand on a version set, it is non-empty
    and in ascending order without repeats, the requested version is what
    [int] made of the variable, and version selection then ends with a
    member of the set: the index [-1] is never out of range. *)
Theorem discovery_feeds_selection (w : world) (t : list event) (r : Z)
    (V : list Z) :
  resolve w = (t, Done (r, V)) →
  StronglySorted Z.lt V ∧ V ≠ []
  ∧ VERSION w = ([], Done r)
  ∧ ∃ t' v, target_version r V = (t', Done v) ∧ v ∈ V.
Proof.
  intros Hres.
  destruct (resolve_VersionSet w t r V Hres) as [HV Hne].
  split; [exact HV|]. split; [exact Hne|]. split.
  - unfold resolve in Hres.
    apply bind_Done_inv in Hres as (? & ? & ? & _ & Hres & _).
    apply bind_Done_inv in Hres as (? & key & ? & _ & Hres & _).
    apply bind_Done_inv in Hres as (tv & requested & ? & Hv & Hres & _).
    apply bind_Done_inv in Hres as (? & listed & ? & _ & Hres & _).
    apply bind_Done_inv in Hres as (? & V' & ? & _ & Hres & _).
    injection Hres as _ <- _. rewrite Hv. f_equal.
    pose proof (int_trace (PStr (getenv_or w "ROBOFLOW_VERSION" "1"))) as Ht.
    unfold VERSION in Hv. rewrite Hv in Ht. exact Ht.
  - destruct (last_nonempty V Hne) as [m Hm].
    unfold target_version, index_last. case_bool_decide as Hin.
    + by exists [], r.
    + rewrite Hm. simpl. eexists _, m. split; [reflexivity|].
      by apply last_elem.
Qed.

Lemma discovery_feeds_selection_witness :
  StronglySorted Z.lt [1; 3] ∧ [1; 3] ≠ []
  ∧ VERSION demo_world = ([], Done 2)
  ∧ ∃ t' v, target_version 2 [1; 3] = (t', Done v) ∧ v ∈ [1; 3].
Proof.
  apply (discovery_feeds_selection demo_world
           [Print "Connecting to Roboflow workspace: cvtesting-3rnup";
            CallRoboflow "secret"; CallWorkspace "cvtesting-3rnup";
            CallProject "segmentation-ui-oh51c"; CallVersions;
            Print "Available versions: 1, 3"] 2 [1; 3]).
  vm_compute. reflexivity.
Defined.

Lemma result_bind_Done {A B} t (a : A) (k : A -> M B) :
  result (bind (t, Done a) k) = result (k a).
Proof. simpl. by destruct (k a). Qed.

Lemma not_before_versions ev t :
  ev ∈ t → is_generate ev = true ∨ is_download ev = true →
  Forall before_versions t → False.
Proof.
  intros Hin Hev Hall.
  destruct (proj1 (Forall_forall _ _) Hall ev Hin) as [Hg Hd].
  destruct Hev; congruence.
Qed.

Lemma extract_version_numbers_no_exit v code :
  result (_extract_version_numbers v) ≠ Exit code.
Proof.
  unfold _extract_version_numbers.
  destruct (py_iter (py_or v (PList []))) as [t [items|c|e]] eqn:Hiter.
  - rewrite result_bind_Done.
    destruct (extract_loop_result items []) as [[V HV]|[value HV]].
    + destruct (extract_loop items []) as [t' o]. simpl in HV. by subst o.
    + destruct (extract_loop items []) as [t' o]. simpl in HV. by subst o.
  - unfold py_iter in Hiter.
    destruct (py_or v (PList [])); discriminate Hiter.
  - done.
Qed.

Lemma check_dependencies_cases w :
  check_dependencies w = ret tt
  ∨ ∃ t, check_dependencies w = (t, Exit 1) ∧ Forall before_versions t.
Proof.
  unfold check_dependencies, missing.
  destruct (have_roboflow w), (have_dotenv w); simpl; [by left|..];
    right; eexists; (split; [reflexivity|]); by repeat constructor.
Qed.

Lemma api_key_cases w :
  (∃ key, api_key w = ret key
          ∧ getenv w "ROBOFLOW_API_KEY" = Some key ∧ key ≠ "")
  ∨ ∃ t, api_key w = (t, Exit 1) ∧ Forall before_versions t.
Proof.
  unfold api_key. destruct (getenv w "ROBOFLOW_API_KEY") as [key|].
  - destruct (String.eqb key "") eqn:Hkey.
    + right. eexists. split; [reflexivity|]. by repeat constructor.
    + left. exists key. apply String.eqb_neq in Hkey. done.
  - right. eexists. split; [reflexivity|]. by repeat constructor.
Qed.

Lemma VERSION_cases w :
  (∃ r, VERSION w = ret r) ∨ ∃ e, VERSION w = ([], Raise e).
Proof.
  unfold VERSION, int_. destruct (py_int _); [left|right]; by eexists.
Qed.

Lemma connect_and_list_cases w key :
  (∃ listed, connect_and_list w key
             = (Print ("Connecting to Roboflow workspace: " +:+ WORKSPACE w)
                :: handshake w key, Done listed))
  ∨ ∃ t e, connect_and_list w key = (t, Raise e) ∧ Forall before_versions t.
Proof.
  unfold connect_and_list, call_, call, handshake.
  destruct (rf_init w key) as [e|]; simpl;
    [right; eexists _, _; split; [reflexivity|by repeat constructor]|].
  destruct (rf_workspace w (WORKSPACE w)) as [e|]; simpl;
    [right; eexists _, _; split; [reflexivity|by repeat constructor]|].
  destruct (rf_project w (WORKSPACE w) (PROJECT w)) as [e|]; simpl;
    [right; eexists _, _; split; [reflexivity|by repeat constructor]|].
  destruct (rf_versions w) as [e|versions]; simpl;
    [right; eexists _, _; split; [reflexivity|by repeat constructor]|].
  pose proof (extract_version_numbers_trace versions) as Ht.
  pose proof (extract_version_numbers_no_exit versions) as Hexit.
  destruct (_extract_version_numbers versions) as [t [listed|code|e]];
    unfold trace in Ht; simpl in Ht; subst t; simpl.
  - left. by eexists.
  - by destruct (Hexit code).
  - right. eexists _, _. split; [reflexivity|]. by repeat constructor.
Qed.

(** X12. No generation and no download is ever requested before the client
    has been set up and asked for the versions: whenever a run makes such a
    request, the API key is set and not empty, and the calls on the client
    begin with [Roboflow(key)], [workspace(WORKSPACE)], [project(PROJECT)],
    [versions()], in this order. *)
Theorem handshake_comes_first (w : world) (ev : event) :
  ev ∈ trace (main w) →
  is_generate ev = true ∨ is_download ev = true →
  ∃ key rest,
    getenv w "ROBOFLOW_API_KEY" = Some key ∧ key ≠ ""
    ∧ List.filter is_remote_call (trace (main w)) = handshake w key ++ rest.
Proof.
  intros Hin Hev. unfold main in *.
  destruct (check_dependencies_cases w) as [Hc|(t & Hc & Hq)];
    rewrite Hc in *;
    [rewrite bind_ret_l in *|by destruct (not_before_versions ev t)].
  destruct (api_key_cases w) as [(key & Hk & Henv & Hne)|(t & Hk & Hq)];
    rewrite Hk in *;
    [rewrite bind_ret_l in *|by destruct (not_before_versions ev t)].
  destruct (VERSION_cases w) as [[r Hv]|[e Hv]]; rewrite Hv in *;
    [rewrite bind_ret_l in *|by apply elem_of_nil in Hin].
  destruct (connect_and_list_cases w key) as [[listed Hl]|(t & e & Hl & Hq)];
    rewrite Hl in *;
    [|by destruct (not_before_versions ev t)].
  exists key. eexists. split; [exact Henv|]. split; [exact Hne|].
  rewrite trace_bind. unfold trace at 1. simpl fst.
  rewrite List.filter_app. reflexivity.
Qed.

Lemma handshake_comes_first_witness :
  ∃ key rest,
    getenv demo_world "ROBOFLOW_API_KEY" = Some key ∧ key ≠ ""
    ∧ List.filter is_remote_call (trace (main demo_world))
      = handshake demo_world key ++ rest.
Proof.
  apply (handshake_comes_first demo_world
           (CallDownload 3 "yolov8" "./dataset" true)).
  - vm_compute. do 8 apply list_elem_of_further. apply list_elem_of_here.
  - right. reflexivity.
Defined.

(** X13. A failure while connecting or listing the versions is final: when
    the dependencies are present, the key and the requested version are
    read, and an exception leaves the connecting and listing steps, the
    process ends with status 1 on that exception, without asking for a
    generation or a download. *)
Theorem listing_failure_is_fatal (w : world) (key : string) (r : Z)
    (e : exn) :
  missing w = [] →
  api_key w = ([], Done key) →
  VERSION w = ([], Done r) →
  result (connect_and_list w key) = Raise e →
  run w = (trace (connect_and_list w key) ++ [Traceback e], 1)
  ∧ Forall before_versions (run w).1.
Proof.
  intros Hm Hk Hv Hc.
  assert (Hrun : run w = (trace (connect_and_list w key) ++ [Traceback e], 1)).
  { unfold run, main, check_dependencies. rewrite Hm, Hk, Hv.
    rewrite (bind_ret_l tt), (bind_ret_l key), (bind_ret_l r).
    destruct (connect_and_list w key) as [t o]. simpl in Hc. subst o.
    reflexivity. }
  split; [exact Hrun|]. rewrite Hrun. simpl.
  apply Forall_app. split; [|by repeat constructor].
  destruct (connect_and_list_cases w key) as [[listed Hl]|(t & e' & Hl & Hq)];
    rewrite Hl in *; [discriminate Hc|exact Hq].
Qed.

Lemma listing_failure_is_fatal_witness :
  run failing_listing_world
  = (trace (connect_and_list failing_listing_world "secret")
     ++ [Traceback (Exn (OtherError "ConnectionError") (PStr "offline"))], 1)
  ∧ Forall before_versions (run failing_listing_world).1.
Proof.
  apply (listing_failure_is_fatal failing_listing_world "secret" 2
           (Exn (OtherError "ConnectionError") (PStr "offline")));
    reflexivity.
Defined.

(** ** Runs of a project without versions (lines 73-128) *)

Lemma main_after_listing w key r t listed :
  missing w = [] →
  api_key w = ([], Done key) →
  VERSION w = ([], Done r) →
  connect_and_list w key = (t, Done listed) →
  main w
  = bind ((t, Done listed) : M (list Z))
      (fun listed =>
         versions <- available_versions w (AUTO_GENERATE_VERSION w) listed ;;
         fetch w r versions)
  ∧ List.filter is_remote_call t = handshake w key.
Proof.
  intros Hm Hk Hv Hl. split.
  - unfold main, check_dependencies. rewrite Hm, Hk, Hv.
    rewrite (bind_ret_l tt), (bind_ret_l key), (bind_ret_l r), Hl.
    reflexivity.
  - destruct (connect_and_list_cases w key) as [[l Hl']|(t' & e & Hl' & _)];
      rewrite Hl in Hl'; [|discriminate Hl'].
    by injection Hl' as -> _.
Qed.

(** X15. On a project without versions and with auto-generation on, once
    the listing has come back empty and the client has answered the
    generation with something [int] accepts, the calls of the whole run are
    the four opening ones, one generation with empty settings, and one
    download of the generated version. *)
Theorem empty_project_generates_then_downloads (w : world) (key : string)
    (r : Z) (t : list event) (answer : pyval) (g : Z) :
  missing w = [] →
  api_key w = ([], Done key) →
  VERSION w = ([], Done r) →
  connect_and_list w key = (t, Done []) →
  AUTO_GENERATE_VERSION w = true →
  rf_generate_version w generate_settings = inr answer →
  py_int answer = IntOk g →
  List.filter is_remote_call (trace (main w))
  = handshake w key
    ++ [CallGenerateVersion generate_settings;
        CallDownload g (FORMAT w) (DEST w) (OVERWRITE_EXISTING w)].
Proof.
  intros Hm Hk Hv Hl Hauto Hgen Hint.
  destruct (main_after_listing w key r t [] Hm Hk Hv Hl) as [-> Hshake].
  assert (Hav : available_versions w true []
    = ([Print "No dataset versions found. Generating initial version automatically...";
        CallGenerateVersion generate_settings;
        Print ("Generated version " +:+ str_int g +:+ ".")], Done [g])).
  { unfold available_versions, call, int_. rewrite Hgen. simpl.
    rewrite Hint. reflexivity. }
  rewrite trace_bind. cbn [result trace fst snd].
  rewrite Hauto, trace_bind, Hav. cbn [result trace fst snd].
  rewrite !List.filter_app, Hshake.
  change (trace (fetch w r [g])) with ((fetch w r [g]).1) in *.
  pose proof (fetch_single_version w r g) as Hf. unfold trace in Hf.
  rewrite Hf. reflexivity.
Qed.

Lemma empty_project_generates_then_downloads_witness :
  List.filter is_remote_call (trace (main empty_project_world))
  = handshake empty_project_world "secret"
    ++ [CallGenerateVersion generate_settings;
        CallDownload 1 (FORMAT empty_project_world) (DEST empty_project_world)
          (OVERWRITE_EXISTING empty_project_world)].
Proof.
  apply (empty_project_generates_then_downloads empty_project_world "secret" 2
           (Print "Connecting to Roboflow workspace: cvtesting-3rnup"
            :: handshake empty_project_world "secret") (PInt 1) 1);
    vm_compute; reflexivity.
Defined.

(** X16. On a project without versions and with auto-generation off, once
    the listing has come back empty the process ends with status 1, and the
    four opening calls are the only ones it has made: nothing is generated
    and nothing is downloaded. *)
Theorem empty_project_without_generation (w : world) (key : string) (r : Z)
    (t : list event) :
  missing w = [] →
  api_key w = ([], Done key) →
  VERSION w = ([], Done r) →
  connect_and_list w key = (t, Done []) →
  AUTO_GENERATE_VERSION w = false →
  (run w).2 = 1
  ∧ List.filter is_remote_call (run w).1 = handshake w key.
Proof.
  intros Hm Hk Hv Hl Hauto.
  destruct (main_after_listing w key r t [] Hm Hk Hv Hl) as [Hmain Hshake].
  unfold run. rewrite Hmain. cbn [bind]. rewrite Hauto. simpl.
  split; [reflexivity|].
  rewrite List.filter_app, Hshake. simpl. by rewrite ?app_nil_r.
Qed.

Lemma empty_project_without_generation_witness :
  (run manual_project_world).2 = 1
  ∧ List.filter is_remote_call (run manual_project_world).1
    = handshake manual_project_world "secret".
Proof.
  apply (empty_project_without_generation manual_project_world "secret" 1
           (Print "Connecting to Roboflow workspace: cvtesting-3rnup"
            :: handshake manual_project_world "secret"));
    vm_compute; reflexivity.
Defined.

(** ** When the run succeeds (lines 105-147) *)

Lemma result_bind {A B} (m : M A) (k : A -> M B) :
  result (bind m k) =
  match result m with
  | Done a => result (k a)
  | Exit code => Exit code
  | Raise e => Raise e
  end.
Proof.
  destruct m as [t [a|code|e]]; simpl; try reflexivity.
  destruct (k a) as [t2 r]. reflexivity.
Qed.

Lemma status_0_iff_Done (m : M unit) :
  exits_with_1 m → (interpreter m).2 = 0 ↔ result m = Done tt.
Proof.
  intros Hexit. unfold exits_with_1 in Hexit.
  destruct m as [t [[]|code|e]]; simpl in *; [done| |done].
  rewrite (Hexit code eq_refl). done.
Qed.

Lemma target_version_result r V m :
  last V = Some m →
  result (target_version r V)
  = Done (if bool_decide (r ∈ V) then r else m).
Proof.
  intros Hlast. unfold target_version, index_last.
  case_bool_decide; [reflexivity|]. by rewrite Hlast.
Qed.

Lemma dataset_result w v V m fmt dest ow :
  last V = Some m →
  result (dataset w v V fmt dest ow)
  = match rf_download w v fmt dest ow with
    | inr location => Done location
    | inl e =>
        if v =? m then Raise e
        else match rf_download w m fmt dest ow with
             | inr location => Done location
             | inl e' => Raise e'
             end
    end.
Proof.
  intros Hlast. unfold dataset, download, call, index_last. rewrite Hlast.
  destruct (rf_download w v fmt dest ow); simpl; [|reflexivity].
  destruct (v =? m); simpl; [reflexivity|].
  by destruct (rf_download w m fmt dest ow).
Qed.

Lemma verification_result w location :
  result (verification w location) = Done tt.
Proof.
  unfold verification. by destruct (fs_exists w (Path location)).
Qed.

(** X17. From a version set on, the rest of the script ends with status 0
    exactly when the selected version downloads or, that one failing and
    not being the latest, the latest downloads.  The selected version is the
    requested one when it is available and the latest otherwise. *)
Theorem fetch_succeeds_iff (w : world) (r : Z) (V : list Z) (m : Z) :
  VersionSet V → is_max m V →
  (interpreter (fetch w r V)).2 = 0
  ↔ (let target := if bool_decide (r ∈ V) then r else m in
     (∃ location, rf_download w target (FORMAT w) (DEST w)
                    (OVERWRITE_EXISTING w) = inr location)
     ∨ (target ≠ m
        ∧ ∃ location, rf_download w m (FORMAT w) (DEST w)
                        (OVERWRITE_EXISTING w) = inr location)).
Proof.
  intros HV Hm. pose proof (VersionSet_max_last V m HV Hm) as Hlast.
  rewrite (status_0_iff_Done _ (exits_fetch w r V)).
  unfold fetch. rewrite result_bind, (target_version_result r V m Hlast).
  rewrite result_bind. simpl result at 1. rewrite result_bind.
  rewrite (dataset_result w _ V m _ _ _ Hlast).
  set (target := if bool_decide (r ∈ V) then r else m).
  assert (Hrest : ∀ location,
    result (print (nl +:+ "Download complete.") ;;
            print ("Dataset location: " +:+ location) ;;
            print ("Overwrite enabled: " +:+ str_bool (OVERWRITE_EXISTING w)) ;;
            verification w location) = Done tt).
  { intros location. rewrite !result_bind. simpl.
    apply verification_result. }
  destruct (rf_download w target _ _ _) as [e|location] eqn:Hfirst.
  - destruct (target =? m) eqn:Heq.
    + apply Z.eqb_eq in Heq. split; [discriminate|].
      intros [[? [=]]|[Hne _]]. by destruct Hne.
    + apply Z.eqb_neq in Heq.
      destruct (rf_download w m _ _ _) as [e'|location] eqn:Hsecond.
      * split; [discriminate|]. intros [[? [=]]|[_ [? [=]]]].
      * rewrite Hrest. split; [|done]. intros _. right. split; [done|].
        by eexists.
  - rewrite Hrest. split; [|done]. intros _. left. by eexists.
Qed.

Lemma fetch_succeeds_iff_witness :
  (interpreter (fetch demo_world 1 [1; 3])).2 = 0
  ↔ (let target := if bool_decide (1 ∈ [1; 3]) then 1 else 3 in
     (∃ location, rf_download demo_world target (FORMAT demo_world)
                    (DEST demo_world) (OVERWRITE_EXISTING demo_world)
                  = inr location)
     ∨ (target ≠ 3
        ∧ ∃ location, rf_download demo_world 3 (FORMAT demo_world)
                        (DEST demo_world) (OVERWRITE_EXISTING demo_world)
                      = inr location)).
Proof.
  apply (fetch_succeeds_iff demo_world 1 [1; 3] 3).
  - unfold VersionSet. repeat constructor.
  - split; [apply list_elem_of_further, list_elem_of_here|].
    intros x Hx. apply elem_of_cons in Hx as [->|Hx]; [lia|].
    apply list_elem_of_singleton in Hx. lia.
Defined.
